(** * CloudFlareImages: a shallow embedding of [cloudflare.py]

    The client class [CloudFlareImages] turns method calls into HTTP
    requests handed to the [requests] library.  The embedding keeps the
    boundary where the source has it: a method is a computation that
    records, in order, every file it opens and every request it hands
    to [requests], and that ends either with a value or with the
    exception Python raises.  The network and the file system are
    oracles of the [world]. *)

From Stdlib Require Import ZArith Ascii String List Bool Lia.
From stdpp Require Import base option gmap strings.

Set Warnings "-register-all".
Local Open Scope Z_scope.
Local Open Scope string_scope.

(** ** Python values *)

(** A Python [float]: a dyadic number [m * 2^e], an infinity or a NaN. *)
Inductive pyfloat : Type :=
  | FFin (m e : Z)
  | FInf (negative : bool)
  | FNan.

(** [datetime.datetime], the type of the [expiry] argument. *)
Record datetime : Type := mkDatetime {
  dt_year : Z; dt_month : Z; dt_day : Z;
  dt_hour : Z; dt_minute : Z; dt_second : Z; dt_microsecond : Z
}.

(** The objects that flow through the client: what [json.loads] builds
    (None, bool, int, float, str, list, dict with str keys) and the
    [datetime] a caller may pass.  A Python [str] is a Rocq [string]
    whose characters are the code points below 256. *)
Inductive value : Type :=
  | VNone
  | VBool (b : bool)
  | VInt (n : Z)
  | VFloat (f : pyfloat)
  | VStr (s : string)
  | VList (l : list value)
  | VDict (d : gmap string value)
  | VDatetime (t : datetime).

(** Exceptions the modelled code paths can raise. *)
Inductive exn : Type :=
  | IOError (path : string)
  | KeyError (key : string)
  | TypeError
  | ValueError
  | RequestException
  | JSONDecodeError.

Inductive outcome (A : Type) : Type :=
  | Return (a : A)
  | Raise (e : exn).
Arguments Return {A} a.
Arguments Raise {A} e.

(** ** Python's string methods, as far as the client uses them *)

(** [str.lower] on the code points below 256: the ASCII capitals and the
    Latin-1 capitals (all of 192..222 but the multiplication sign 215)
    move up by 32; every other character is its own lower case. *)
Definition chr_lower (c : ascii) : ascii :=
  let n := N_of_ascii c in
  if ((65 <=? n) && (n <=? 90) || (192 <=? n) && (n <=? 214)
      || (216 <=? n) && (n <=? 222))%N
  then ascii_of_N (n + 32) else c.

Fixpoint str_lower (s : string) : string :=
  match s with
  | EmptyString => EmptyString
  | String c s' => String (chr_lower c) (str_lower s')
  end.

(** [s.startswith(p)] *)
Definition str_startswith (s p : string) : bool := String.prefix p s.

(** [s[n:]] for [0 <= n] *)
Fixpoint str_drop (n : nat) (s : string) : string :=
  match n, s with
  | O, _ => s
  | S n', EmptyString => EmptyString
  | S n', String _ s' => str_drop n' s'
  end.

(** [s[:n]] for [0 <= n] *)
Fixpoint str_take (n : nat) (s : string) : string :=
  match n, s with
  | O, _ => EmptyString
  | S n', EmptyString => EmptyString
  | S n', String c s' => String c (str_take n' s')
  end.

(** [s.replace(old, new)] for a non-empty [old]: the occurrences of [old]
    are found from left to right without overlap and each is replaced.
    [skip] counts the characters of a match still to be passed over. *)
Fixpoint replace_from (old new : string) (skip : nat) (s : string) : string :=
  match s with
  | EmptyString => EmptyString
  | String c s' =>
      match skip with
      | S k => replace_from old new k s'
      | O =>
          if String.prefix old s
          then new +:+ replace_from old new (Nat.pred (String.length old)) s'
          else String c (replace_from old new O s')
      end
  end.

(** With an empty [old], Python puts [new] before every character and at
    the end. *)
Fixpoint interleave (new s : string) : string :=
  match s with
  | EmptyString => new
  | String c s' => new +:+ String c (interleave new s')
  end.

Definition str_replace (s old new : string) : string :=
  match old with
  | EmptyString => interleave new s
  | String _ _ => replace_from old new O s
  end.

(** [old in s] *)
Fixpoint str_contains (s old : string) : bool :=
  String.prefix old s ||
  match s with
  | EmptyString => false
  | String _ s' => str_contains s' old
  end.

(** [c in s] for a one-character [c]. *)
Fixpoint has_char (c : ascii) (s : string) : bool :=
  match s with
  | EmptyString => false
  | String a s' => Ascii.eqb a c || has_char c s'
  end.

(** The NUL character, which no path handed to the operating system may
    hold. *)
Definition NUL : ascii := Ascii.zero.

(** [s.rfind(c)] for a one-character [c]: the highest index holding [c],
    or -1. *)
Fixpoint rfind_from (c : ascii) (s : string) (i acc : Z) : Z :=
  match s with
  | EmptyString => acc
  | String a s' => rfind_from c s' (i + 1) (if Ascii.eqb a c then i else acc)
  end.

Definition str_rfind (s : string) (c : ascii) : Z := rfind_from c s 0 (-1).

(** ** [os.path.splitext]

    [genericpath._splitext(p, sep, altsep, extsep)] of the standard
    library; [posixpath.splitext] calls it with ['/'], [None], ['.']. *)
Section Splitext.
Variables (p : string) (extsep : ascii) (dotIndex : Z).

(** The [while filenameIndex < dotIndex] loop that skips leading dots;
    [n] is [dotIndex - filenameIndex], so [O] is the loop's exit. *)
Fixpoint splitext_loop (n : nat) (filenameIndex : Z) : string * string :=
  match n with
  | O => (p, EmptyString)
  | S n' =>
      if negb (String.eqb (String.substring (Z.to_nat filenameIndex) 1 p)
                          (String extsep EmptyString))
      then (str_take (Z.to_nat dotIndex) p, str_drop (Z.to_nat dotIndex) p)
      else splitext_loop n' (filenameIndex + 1)
  end.
End Splitext.

Definition _splitext (p : string) (sep : ascii) (altsep : option ascii)
    (extsep : ascii) : string * string :=
  let sepIndex := str_rfind p sep in
  let sepIndex :=
    match altsep with
    | Some a => Z.max sepIndex (str_rfind p a)
    | None => sepIndex
    end in
  let dotIndex := str_rfind p extsep in
  if (dotIndex >? sepIndex)%Z
  then splitext_loop p extsep dotIndex
         (Z.to_nat (dotIndex - (sepIndex + 1))) (sepIndex + 1)
  else (p, EmptyString).

Definition os_path_splitext (p : string) : string * string :=
  _splitext p "/"%char None "."%char.

(** ** Subscription and comparison of values *)

(** [v[k]] for a [str] key: a dict looks the key up and raises
    [KeyError] when it is missing; a list or a str accepts only integer
    indices and the other objects are not subscriptable, all of which
    is a [TypeError]. *)
Definition subscript (v : value) (k : string) : outcome value :=
  match v with
  | VDict d =>
      match d !! k with
      | Some x => Return x
      | None => Raise (KeyError k)
      end
  | _ => Raise TypeError
  end.

(** Whether a value is a dict. *)
Definition is_dict (v : value) : bool :=
  match v with VDict _ => true | _ => false end.

(** [float == int] compares the exact mathematical values. *)
Definition float_eq_int (f : pyfloat) (n : Z) : bool :=
  match f with
  | FFin m e => if (0 <=? e)%Z then (m * 2 ^ e =? n)%Z else (m =? n * 2 ^ (- e))%Z
  | FInf _ => false
  | FNan => false
  end.

(** [v != s] for a [str] [s]: only an equal [str] is equal to it. *)
Definition ne_str (v : value) (s : string) : bool :=
  match v with
  | VStr t => negb (String.eqb t s)
  | _ => true
  end.

(** [v != n] for an [int] [n]: numbers compare by value, and [bool] is
    the subclass of [int] with [True == 1] and [False == 0]. *)
Definition ne_int (v : value) (n : Z) : bool :=
  match v with
  | VInt m => negb (m =? n)%Z
  | VBool b => negb (Z.b2z b =? n)%Z
  | VFloat f => negb (float_eq_int f n)
  | _ => true
  end.

(** ** Requests, events and the world *)

Inductive method : Type := GET | POST | DELETE.

(** An open file object: the path it was opened from and the bytes it
    will yield. *)
Record file : Type := mkFile { file_path : string; file_bytes : string }.

(** The arguments of one [requests.get], [requests.post] or
    [requests.delete] call: the URL and the keyword arguments
    [headers], [params], [json] and [files] ([None] when not passed). *)
Record request : Type := mkRequest {
  req_method : method;
  req_url : value;
  req_headers : gmap string string;
  req_params : option (gmap string value);
  req_json : option (gmap string value);
  req_files : option (gmap string file)
}.

(** A [requests.Response]: its [.text], and what [.json()] decodes from
    it ([None] when the body is not JSON and [.json()] raises). *)
Record response : Type := mkResponse {
  resp_text : string;
  resp_json : option value
}.

Inductive event : Type :=
  | EvOpen (f : file)
  | EvHttp (r : request).

(** The environment a call runs in.  [fs_read path] is the content
    of the file at [path] when it exists and is readable; no file has a
    NUL character in its path.  [http_reply] answers a request, given
    everything that happened before it, with a response, or with
    nothing when [requests] raises. *)
Record world : Type := mkWorld {
  fs_read : string -> option string;
  http_reply : list event -> request -> option response;
  fs_no_nul : forall path : string,
    has_char NUL path = true -> fs_read path = None
}.

(** ** The monad of client computations

    A computation reads the world, extends the log of events and ends
    with a value or an exception. *)
Definition M (A : Type) : Type := world -> list event -> outcome A * list event.

#[global] Instance M_ret : MRet M := fun A a _ log => (Return a, log).

#[global] Instance M_bind : MBind M := fun A B f m w log =>
  match m w log with
  | (Return a, log') => f a w log'
  | (Raise e, log') => (Raise e, log')
  end.

(** A pure step that may raise. *)
Definition lift {A : Type} (o : outcome A) : M A := fun _ log => (o, log).

(** [open(path, "rb")]: a path that holds a NUL character is refused with
    [ValueError] before the file system is asked; a file that does not
    exist or cannot be read is an [OSError], of which [IOError] is the
    other name. *)
Definition open_rb (path : string) : M file := fun w log =>
  if has_char NUL path then (Raise ValueError, log)
  else
    match fs_read w path with
    | Some bytes =>
        let f := mkFile path bytes in (Return f, (log ++ [EvOpen f])%list)
    | None => (Raise (IOError path), log)
    end.

(** [requests.request(...)]: the request is logged, then answered. *)
Definition send (r : request) : M response := fun w log =>
  match http_reply w log r with
  | Some resp => (Return resp, (log ++ [EvHttp r])%list)
  | None => (Raise RequestException, (log ++ [EvHttp r])%list)
  end.

Definition requests_get (url : value) (headers : gmap string string) : M response :=
  send (mkRequest GET url headers None None None).

Definition requests_delete (url : value) (headers : gmap string string) : M response :=
  send (mkRequest DELETE url headers None None None).

Definition requests_post (url : value) (headers : gmap string string)
    (params json : option (gmap string value))
    (files : option (gmap string file)) : M response :=
  send (mkRequest POST url headers params json files).

(** [resp.json()] *)
Definition json (resp : response) : M value :=
  lift (match resp_json resp with
        | Some v => Return v
        | None => Raise JSONDecodeError
        end).

(** [resp.text] *)
Definition text (resp : response) : M string := mret (resp_text resp).

(** ** The class [CloudFlareImages] *)

(** An instance: the class attributes, which a method reads through
    [self], and the attributes [__init__] assigns. *)
Record CloudFlareImages : Type := mkSelf {
  ENDPOINT_BASE : string;
  SUPPORTED_FORMATS : list string;
  MAX_WIDTH : Z;
  MAX_HEIGHT : Z;
  MAX_SIZE_MB : Z;
  apiKey : string;
  accountId : string;
  email : string;
  accountHash : string;
  requestHeaders : gmap string string;
  authenticatedUploadURL : string
}.

Definition __init__ (apiKey accountId email accountHash : string)
    : CloudFlareImages :=
  {| ENDPOINT_BASE := "https://api.cloudflare.com/client/v4";
     SUPPORTED_FORMATS := [".png"; ".gif"; ".jpeg"; ".jpg"; ".webp"; ".svg"];
     MAX_WIDTH := 10000;
     MAX_HEIGHT := 10000;
     MAX_SIZE_MB := 10;
     apiKey := apiKey;
     accountId := accountId;
     email := email;
     accountHash := accountHash;
     requestHeaders :=
       <["X-Auth-Email" := email]> (<["X-Auth-Key" := apiKey]> ∅);
     authenticatedUploadURL :=
       "accounts/" +:+ accountId +:+ "/images/v2/direct_upload" |}.

Section Methods.
Variable self : CloudFlareImages.

Definition _checkIfImageSupported (path : string) : bool :=
  let file_extension := str_lower (snd (os_path_splitext path)) in
  bool_decide (file_extension ∈ SUPPORTED_FORMATS self).

Definition listImages (page perPage : Z) : M value :=
  let endpoint :=
    ENDPOINT_BASE self +:+ "/accounts/" +:+ accountId self +:+ "/images/v1" in
  resp ← requests_get (VStr endpoint) (requestHeaders self);
  json resp.

Definition createDirectUploadLink (requireSignedURLs : bool)
    (metaData : option (gmap string value)) (expiry : option datetime)
    : M value :=
  let endpoint :=
    ENDPOINT_BASE self +:+ "/accounts/" +:+ accountId self
      +:+ "/images/v2/direct_upload" in
  let payload : gmap string value := ∅ in
  let payload := <["requireSignedURLs" := VBool requireSignedURLs]> payload in
  let payload :=
    match metaData with
    | Some d => <["metadata" := VDict d]> payload
    | None => payload
    end in
  let payload :=
    match expiry with
    | Some t => <["expiry" := VDatetime t]> payload
    | None => payload
    end in
  resp ← requests_post (VStr endpoint) (requestHeaders self)
           (Some payload) None None;
  json resp.

Definition upload (directUploadResponse : value) (imagePath : string)
    : M string :=
  f ← open_rb imagePath;
  let file : gmap string file := {["file" := f]} in
  result ← lift (subscript directUploadResponse "result");
  uploadURL ← lift (subscript result "uploadURL");
  resp ← requests_post uploadURL (requestHeaders self)
           None None (Some file);
  text resp.

Definition listVariants : M value :=
  resp ← requests_get
           (VStr (ENDPOINT_BASE self +:+ "/accounts/" +:+ accountId self
                    +:+ "/images/v1/variants"))
           (requestHeaders self);
  json resp.

Definition createVariant (name fitType : string) (width height : Z)
    (metaDataToSave : string) (neverRequireSignedURLs : bool) : M value :=
  let options : gmap string value :=
    <["height" := VInt height]> (<["width" := VInt width]>
      (<["metadata" := VStr metaDataToSave]> (<["fit" := VStr fitType]> ∅))) in
  let payload : gmap string value :=
    <["neverRequireSignedURLs" := VBool neverRequireSignedURLs]>
      (<["options" := VDict options]> (<["id" := VStr name]> ∅)) in
  resp ← requests_post
           (VStr (ENDPOINT_BASE self +:+ "/accounts/" +:+ accountId self
                    +:+ "/images/v1/variants"))
           (requestHeaders self) None (Some payload) None;
  json resp.

Definition deleteImage (id : string) : M value :=
  resp ← requests_delete
           (VStr (ENDPOINT_BASE self +:+ "/accounts/" +:+ accountId self
                    +:+ "/images/v1/" +:+ id))
           (requestHeaders self);
  json resp.

Definition getVariantDetails (name : string) : M value :=
  resp ← requests_get
           (VStr (ENDPOINT_BASE self +:+ "/accounts/" +:+ accountId self
                    +:+ "/images/v1/variants/" +:+ name))
           (requestHeaders self);
  json resp.

(** The four conditional expressions of the payload are evaluated in
    the order of the dict display; each reads [details] first for its
    condition and again in its [else] branch. *)
Definition updateVariant (name fitType : string) (width height : Z)
    (metaDataToSave : string) : M value :=
  fetched ← getVariantDetails name;
  result ← lift (subscript fetched "result");
  variant ← lift (subscript result name);
  details ← lift (subscript variant "options");
  d_fit ← lift (subscript details "fit");
  fit ← (if ne_str d_fit fitType then mret (VStr fitType)
         else lift (subscript details "fit"));
  d_metadata ← lift (subscript details "metadata");
  metadata ← (if ne_str d_metadata metaDataToSave
              then mret (VStr metaDataToSave)
              else lift (subscript details "metadata"));
  d_width ← lift (subscript details "width");
  width' ← (if ne_int d_width width then mret (VInt width)
            else lift (subscript details "width"));
  d_height ← lift (subscript details "height");
  height' ← (if ne_int d_height height then mret (VInt width)
             else lift (subscript details "height"));
  let payload : gmap string value :=
    <["height" := height']> (<["width" := width']>
      (<["metadata" := metadata]> (<["fit" := fit]> ∅))) in
  resp ← requests_post
           (VStr (ENDPOINT_BASE self +:+ "/accounts/" +:+ accountId self
                    +:+ "/images/v1/variants/" +:+ name))
           (requestHeaders self) None (Some payload) None;
  json resp.

Definition deleteVariant (name : string) : M value :=
  resp ← requests_delete
           (VStr (ENDPOINT_BASE self +:+ "/accounts/" +:+ accountId self
                    +:+ "/images/v1/variants/" +:+ name))
           (requestHeaders self);
  json resp.

Definition getImageDetails (id : string) : M value :=
  resp ← requests_get
           (VStr (ENDPOINT_BASE self +:+ "/accounts/" +:+ accountId self
                    +:+ "/images/v1/" +:+ id))
           (requestHeaders self);
  json resp.

Definition getCustomizedURL (domain imageId variant : string) : string :=
  let domain := str_lower domain in
  let domain :=
    if str_startswith domain "http://"
    then str_replace domain "http://" "https://"
    else if negb (str_startswith domain "https://")
         then "https://" +:+ domain
         else domain in
  domain +:+ "/cdn-cgi/imagedelivery/" +:+ accountHash self +:+ "/"
    +:+ imageId +:+ "/" +:+ variant.

End Methods.

(** ** Calls

    The ten methods that talk to the network, with their arguments. *)
Inductive op : Type :=
  | ListImages (page perPage : Z)
  | CreateDirectUploadLink (requireSignedURLs : bool)
      (metaData : option (gmap string value)) (expiry : option datetime)
  | Upload (directUploadResponse : value) (imagePath : string)
  | ListVariants
  | CreateVariant (name fitType : string) (width height : Z)
      (metaDataToSave : string) (neverRequireSignedURLs : bool)
  | DeleteImage (id : string)
  | GetVariantDetails (name : string)
  | UpdateVariant (name fitType : string) (width height : Z)
      (metaDataToSave : string)
  | DeleteVariant (name : string)
  | GetImageDetails (id : string).

(** What a call evaluates to; the [str] that [upload] returns is the
    object [VStr]. *)
Definition call (self : CloudFlareImages) (o : op) : M value :=
  match o with
  | ListImages page perPage => listImages self page perPage
  | CreateDirectUploadLink r m e => createDirectUploadLink self r m e
  | Upload d path => s ← upload self d path; mret (VStr s)
  | ListVariants => listVariants self
  | CreateVariant n f w h m s => createVariant self n f w h m s
  | DeleteImage id => deleteImage self id
  | GetVariantDetails n => getVariantDetails self n
  | UpdateVariant n f w h m => updateVariant self n f w h m
  | DeleteVariant n => deleteVariant self n
  | GetImageDetails id => getImageDetails self id
  end.

Definition is_upload (o : op) : bool :=
  match o with Upload _ _ => true | _ => false end.

(** The requests of a log, in order. *)
Definition requests_of (log : list event) : list request :=
  omap (fun e => match e with EvHttp r => Some r | EvOpen _ => None end) log.

(** The field [k] of the [json] payload of the latest request of a log. *)
Definition posted_field (log : list event) (k : string) : option value :=
  r ← last (requests_of log); payload ← req_json r; payload !! k.

(** ** Auxiliary definitions for the statements *)

(** A computation that sends one request and decodes the answer: the
    shape of eight of the ten methods. *)
Definition fetch_json (r : request) : M value := send r ≫= json.

(** [sends_with P m]: whatever the world answers, [m] only appends to the
    log, and every request it appends satisfies [P]. *)
Definition sends_with {A : Type} (P : request -> Prop) (m : M A) : Prop :=
  forall (w : world) (log : list event),
  exists evs : list event,
    snd (m w log) = (log ++ evs)%list /\ Forall P (requests_of evs).

(** The URL as the specification words it: the lower-cased domain with a
    leading [http://] turned into [https://], or left alone when it
    starts with [https://], or prefixed with [https://] otherwise;
    then the fixed path. *)
Definition spec_normalize_domain (domain : string) : string :=
  let d := str_lower domain in
  if String.prefix "http://" d then "https://" +:+ str_drop 7 d
  else if String.prefix "https://" d then d
  else "https://" +:+ d.

Definition spec_getCustomizedURL (self : CloudFlareImages)
    (domain imageId variant : string) : string :=
  spec_normalize_domain domain +:+ "/cdn-cgi/imagedelivery/"
    +:+ accountHash self +:+ "/" +:+ imageId +:+ "/" +:+ variant.

(** An instance for the concrete runs below. *)
Definition client0 : CloudFlareImages :=
  __init__ "secret-key" "acct" "owner@example.com" "hash".

(** The two requests of [updateVariant]. *)
Definition variant_url (self : CloudFlareImages) (name : string) : value :=
  VStr (ENDPOINT_BASE self +:+ "/accounts/" +:+ accountId self
          +:+ "/images/v1/variants/" +:+ name).

Definition variant_get (self : CloudFlareImages) (name : string) : request :=
  mkRequest GET (variant_url self name) (requestHeaders self) None None None.

Definition variant_post (self : CloudFlareImages) (name : string)
    (payload : gmap string value) : request :=
  mkRequest POST (variant_url self name) (requestHeaders self)
    None (Some payload) None.

(** The [options] dict inside a variant-details answer. *)
Definition fetched_details (fetched : value) (name : string) : outcome value :=
  match subscript fetched "result" with
  | Return result =>
      match subscript result name with
      | Return variant => subscript variant "options"
      | Raise e => Raise e
      end
  | Raise e => Raise e
  end.

(** The request of [upload]. *)
Definition upload_post (self : CloudFlareImages) (uploadURL : value)
    (f : file) : request :=
  mkRequest POST uploadURL (requestHeaders self) None None
    (Some {["file" := f]}).


(** The same instance with other values for the class attributes that
    declare the limits. *)
Definition with_limits (self : CloudFlareImages) (formats : list string)
    (maxWidth maxHeight maxSizeMB : Z) : CloudFlareImages :=
  {| ENDPOINT_BASE := ENDPOINT_BASE self;
     SUPPORTED_FORMATS := formats;
     MAX_WIDTH := maxWidth;
     MAX_HEIGHT := maxHeight;
     MAX_SIZE_MB := maxSizeMB;
     apiKey := apiKey self;
     accountId := accountId self;
     email := email self;
     accountHash := accountHash self;
     requestHeaders := requestHeaders self;
     authenticatedUploadURL := authenticatedUploadURL self |}.

(** *** Concrete worlds *)

(** A file system without any file, and one whose only file is
    [photo.bmp]. *)
Definition no_files : string -> option string := fun _ => None.

Definition one_photo : string -> option string :=
  fun path => if String.eqb path "photo.bmp" then Some "BM" else None.

Definition no_files_no_nul (path : string) :
  has_char NUL path = true -> no_files path = None :=
  fun _ => eq_refl.

Definition one_photo_no_nul (path : string) :
  has_char NUL path = true -> one_photo path = None.
Proof.
  intros Hnul. unfold one_photo.
  destruct (String.eqb_spec path "photo.bmp") as [-> | _];
    [discriminate Hnul | reflexivity].
Defined.

Definition quoted (s : string) : string :=
  String (ascii_of_nat 34) (s +:+ String (ascii_of_nat 34) EmptyString).

(** The options of the variant [thumb] as the server holds them. *)
Definition thumb_options : gmap string value :=
  <["metadata" := VStr "none"]> (<["height" := VInt 200]>
    (<["width" := VInt 100]> (<["fit" := VStr "cover"]> ∅))).

Definition thumb_details : value :=
  VDict {["result" :=
    VDict {["thumb" := VDict {["options" := VDict thumb_options]}]}]}.

Definition thumb_body : string :=
  "{" +:+ quoted "result" +:+ ": {" +:+ quoted "thumb" +:+ ": {"
    +:+ quoted "options" +:+ ": {" +:+ quoted "fit" +:+ ": " +:+ quoted "cover"
    +:+ ", " +:+ quoted "width" +:+ ": 100, " +:+ quoted "height" +:+ ": 200, "
    +:+ quoted "metadata" +:+ ": " +:+ quoted "none" +:+ "}}}}".

(** A server that answers every request with the details of [thumb]; no
    file is readable. *)
Definition thumb_world : world :=
  {| fs_read := no_files; fs_no_nul := no_files_no_nul;
     http_reply := fun _ _ => Some (mkResponse thumb_body (Some thumb_details)) |}.

(** A world with one readable file, [photo.bmp], and a server whose
    answers are the plain text [ok], which is not JSON. *)
Definition plain_world : world :=
  {| fs_read := one_photo; fs_no_nul := one_photo_no_nul;
     http_reply := fun _ _ => Some (mkResponse "ok" None) |}.


(** A direct-upload answer that names the upload URL. *)
Definition upload_slot : value :=
  VDict {["result" := VDict (<["uploadURL" := VStr "https://x/up"]>
                              {["id" := VStr "img1"]})]}.

(** ** Further definitions for the statements *)

(** The files a log opened, in order. *)
Definition opens_of (log : list event) : list file :=
  omap (fun e => match e with EvOpen f => Some f | EvHttp _ => None end) log.

(** The four keys of the payload that [updateVariant] posts. *)
Definition option_keys : list string := ["fit"; "metadata"; "width"; "height"].


(** The first of the four keys, in the order the payload reads them,
    that an options dict lacks. *)
Definition first_missing (d : gmap string value) : option string :=
  List.find (fun k => match d !! k with None => true | Some _ => false end)
    option_keys.

(** A server that cannot be reached. *)
Definition dead_world : world :=
  {| fs_read := no_files; fs_no_nul := no_files_no_nul;
     http_reply := fun _ _ => None |}.

(** A server that answers every request with a failure envelope, which
    has no [result]. *)
Definition failure_envelope : value :=
  VDict (<["success" := VBool false]> {["errors" := VList []]}).

Definition refusing_world : world :=
  {| fs_read := one_photo; fs_no_nul := one_photo_no_nul;
     http_reply := fun _ _ =>
       Some (mkResponse
               ("{" +:+ quoted "success" +:+ ": false, " +:+ quoted "errors"
                  +:+ ": []}")
               (Some failure_envelope)) |}.

(** A server that holds [thumb] with options that lack [width]. *)
Definition narrow_details : value :=
  VDict {["result" := VDict {["thumb" := VDict {["options" :=
    VDict (<["metadata" := VStr "none"]> (<["height" := VInt 200]>
             {["fit" := VStr "cover"]}))]}]}]}.

Definition narrow_world : world :=
  {| fs_read := no_files; fs_no_nul := no_files_no_nul;
     http_reply := fun _ _ =>
       Some (mkResponse
               ("{" +:+ quoted "result" +:+ ": {" +:+ quoted "thumb" +:+ ": {"
                  +:+ quoted "options" +:+ ": {" +:+ quoted "fit" +:+ ": "
                  +:+ quoted "cover" +:+ ", " +:+ quoted "height" +:+ ": 200, "
                  +:+ quoted "metadata" +:+ ": " +:+ quoted "none" +:+ "}}}}")
               (Some narrow_details)) |}.









(** The fixed path that [getCustomizedURL] appends to the domain. *)
Definition delivery_path (self : CloudFlareImages) (imageId variant : string)
    : string :=
  "/cdn-cgi/imagedelivery/" +:+ accountHash self +:+ "/" +:+ imageId
    +:+ "/" +:+ variant.

(** * Properties *)

(** ** Running computations *)

Lemma bind_run {A B : Type} (m : M A) (k : A -> M B) (w : world) (log : list event) :
  (m ≫= k) w log =
  match m w log with
  | (Return a, log') => k a w log'
  | (Raise e, log') => (Raise e, log')
  end.
Proof. reflexivity. Qed.

Lemma bind_return {A B : Type} (m : M A) (k : A -> M B) w log a log' :
  m w log = (Return a, log') -> (m ≫= k) w log = k a w log'.
Proof. intros H. rewrite bind_run, H. reflexivity. Qed.

Lemma lift_run {A : Type} (o : outcome A) w log : lift o w log = (o, log).
Proof. reflexivity. Qed.

Lemma send_log (r : request) w log :
  snd (send r w log) = (log ++ [EvHttp r])%list.
Proof. unfold send. destruct (http_reply w log r); reflexivity. Qed.

Lemma requests_of_app (l1 l2 : list event) :
  requests_of (l1 ++ l2) = (requests_of l1 ++ requests_of l2)%list.
Proof. apply omap_app. Qed.

Lemma fetch_json_run (r : request) w log :
  fetch_json r w log =
  (match http_reply w log r with
   | Some resp =>
       match resp_json resp with
       | Some v => Return v
       | None => Raise JSONDecodeError
       end
   | None => Raise RequestException
   end, (log ++ [EvHttp r])%list).
Proof.
  unfold fetch_json. rewrite bind_run. unfold send, json, lift.
  destruct (http_reply w log r) as [resp|]; reflexivity.
Qed.


(** ** Single-request methods *)

(** Every method but [upload] and [updateVariant] sends one request with
    the instance's headers and decodes the answer. *)
Lemma single_request_methods self o :
  is_upload o = false ->
  (forall n f w h m, o <> UpdateVariant n f w h m) ->
  exists r, call self o = fetch_json r /\ req_headers r = requestHeaders self.
Proof.
  intros Hup Hupd. destruct o; try discriminate Hup;
    try (eexists; split; [reflexivity | reflexivity]).
  exfalso. eapply Hupd. reflexivity.
Qed.

(** ** listImages *)

(** C5: the request that [listImages] builds (URL, headers, parameters)
    and everything else the call does are the same for any two choices
    of [page] and [perPage]: the one request is a GET of the images
    endpoint with the instance's headers and no [params] at all. *)
Theorem listImages_ignores_pagination :
  forall (self : CloudFlareImages) (page1 perPage1 page2 perPage2 : Z)
         (w : world) (log : list event),
    listImages self page1 perPage1 w log = listImages self page2 perPage2 w log
    /\ snd (listImages self page1 perPage1 w log) =
       (log ++ [EvHttp
          {| req_method := GET;
             req_url := VStr (ENDPOINT_BASE self +:+ "/accounts/"
                               +:+ accountId self +:+ "/images/v1");
             req_headers := requestHeaders self;
             req_params := None; req_json := None; req_files := None |}])%list.
Proof.
  intros self page1 perPage1 page2 perPage2 w log. split; [reflexivity |].
  change (listImages self page1 perPage1) with
    (fetch_json (mkRequest GET
       (VStr (ENDPOINT_BASE self +:+ "/accounts/" +:+ accountId self
                +:+ "/images/v1")) (requestHeaders self) None None None)).
  rewrite fetch_json_run. reflexivity.
Qed.

(** ** createDirectUploadLink *)

(** C4: [createDirectUploadLink] hands exactly one request to [requests],
    a POST whose [params] payload always holds [requireSignedURLs], holds
    [metadata] exactly when [metaData] is not [None] and [expiry] exactly
    when [expiry] is not [None]; an unset argument leaves its key absent
    (the lookup finds nothing, not a [None] value). *)
Theorem createDirectUploadLink_payload :
  forall (self : CloudFlareImages) (requireSignedURLs : bool)
         (metaData : option (gmap string value)) (expiry : option datetime)
         (w : world) (log : list event),
  exists (r : request) (payload : gmap string value),
    snd (createDirectUploadLink self requireSignedURLs metaData expiry w log)
      = (log ++ [EvHttp r])%list
    /\ req_method r = POST
    /\ req_params r = Some payload
    /\ payload !! "requireSignedURLs" = Some (VBool requireSignedURLs)
    /\ payload !! "metadata" = VDict <$> metaData
    /\ payload !! "expiry" = VDatetime <$> expiry
    /\ dom payload =
         {["requireSignedURLs"]}
           ∪ from_option (fun _ => {["metadata"]}) ∅ metaData
           ∪ from_option (fun _ => {["expiry"]}) ∅ expiry.
Proof.
  intros self rs metaData expiry w log.
  eexists; eexists. split.
  { unfold createDirectUploadLink, requests_post. cbv zeta.
    rewrite bind_run. unfold send.
    destruct (http_reply w log _); reflexivity. }
  cbn [req_method req_params].
  split; [reflexivity |]. split; [reflexivity |].
  destruct metaData as [d|], expiry as [t|]; cbn [fmap option_fmap option_map];
    repeat split; try (simplify_map_eq; reflexivity);
    rewrite ?dom_insert_L, dom_empty_L; cbn [from_option]; set_solver.
Qed.

(** ** What a computation sends *)

Section SendsWith.
Context (P : request -> Prop).

Lemma sends_ret {A : Type} (a : A) : sends_with P (mret a).
Proof. intros w log. exists []. split; [symmetry; apply app_nil_r | constructor]. Qed.

Lemma sends_lift {A : Type} (o : outcome A) : sends_with P (lift o).
Proof. intros w log. exists []. split; [symmetry; apply app_nil_r | constructor]. Qed.

Lemma sends_open (path : string) : sends_with P (open_rb path).
Proof.
  intros w log. unfold open_rb.
  destruct (has_char NUL path);
    [exists []; split; [symmetry; apply app_nil_r | constructor] |].
  destruct (fs_read w path) as [bytes|].
  - eexists [_]. split; [reflexivity | constructor].
  - exists []. split; [symmetry; apply app_nil_r | constructor].
Qed.

Lemma sends_send (r : request) : P r -> sends_with P (send r).
Proof.
  intros Hr w log. exists [EvHttp r]. split; [apply send_log |].
  repeat constructor. exact Hr.
Qed.

Lemma sends_bind {A B : Type} (m : M A) (k : A -> M B) :
  sends_with P m -> (forall a, sends_with P (k a)) -> sends_with P (m ≫= k).
Proof.
  intros Hm Hk w log. rewrite bind_run.
  destruct (Hm w log) as (evs & Hlog & Hevs).
  destruct (m w log) as [[a|e] log']; simpl in Hlog; subst log'.
  - destruct (Hk a w (log ++ evs)%list) as (evs' & Hlog' & Hevs').
    exists (evs ++ evs')%list. split.
    + rewrite Hlog'. symmetry. apply app_assoc.
    + rewrite requests_of_app. apply Forall_app. split; assumption.
  - exists evs. split; [reflexivity | assumption].
Qed.

Lemma sends_if {A : Type} (b : bool) (m1 m2 : M A) :
  sends_with P m1 -> sends_with P m2 -> sends_with P (if b then m1 else m2).
Proof. destruct b; trivial. Qed.

Lemma sends_json (resp : response) : sends_with P (json resp).
Proof. apply sends_lift. Qed.
End SendsWith.

Create HintDb sends.
#[local] Hint Resolve sends_ret sends_lift sends_open sends_json sends_if : sends.

Ltac sends_steps :=
  repeat first
    [ apply sends_bind; [| intros ?]
    | apply sends_send; reflexivity
    | solve [auto with sends] ].

(** Every request of every call carries the instance's [requestHeaders]. *)
Lemma call_sends_requestHeaders (self : CloudFlareImages) (o : op) :
  sends_with (fun r => req_headers r = requestHeaders self) (call self o).
Proof.
  destruct o; cbn [call];
    unfold listImages, createDirectUploadLink, upload, listVariants,
      createVariant, deleteImage, getVariantDetails, updateVariant,
      deleteVariant, getImageDetails, requests_get, requests_post,
      requests_delete, text; cbv zeta; sends_steps.
Qed.

(** C6: on an instance built by the constructor, every request that any
    of the ten calls hands to [requests] carries exactly two headers:
    [X-Auth-Key] with the constructor's [apiKey] and [X-Auth-Email] with
    the constructor's [email]. *)
Theorem every_request_carries_auth_headers :
  forall (apiKey accountId email accountHash : string) (o : op)
         (w : world) (log : list event),
  exists evs : list event,
    snd (call (__init__ apiKey accountId email accountHash) o w log)
      = (log ++ evs)%list
    /\ Forall (fun r : request =>
                 req_headers r !! "X-Auth-Key" = Some apiKey
                 /\ req_headers r !! "X-Auth-Email" = Some email
                 /\ dom (req_headers r) = {["X-Auth-Key"; "X-Auth-Email"]})
              (requests_of evs).
Proof.
  intros apiKey accountId email accountHash o w log.
  destruct (call_sends_requestHeaders
              (__init__ apiKey accountId email accountHash) o w log)
    as (evs & Hlog & Hevs).
  exists evs. split; [exact Hlog |].
  eapply Forall_impl; [exact Hevs |].
  intros r Hr. cbn beta in Hr. rewrite Hr. cbn [requestHeaders __init__].
  split; [rewrite lookup_insert_ne by discriminate; apply lookup_insert_eq |].
  split; [apply lookup_insert_eq |].
  rewrite !dom_insert_L, dom_empty_L. set_solver.
Qed.

(** ** Strings *)

Lemma append_cons (c : ascii) (s t : string) :
  String c s +:+ t = String c (s +:+ t).
Proof. reflexivity. Qed.

Lemma append_assoc (s t u : string) : (s +:+ t) +:+ u = s +:+ (t +:+ u).
Proof.
  induction s as [|c s IH]; [reflexivity |].
  rewrite !append_cons, IH. reflexivity.
Qed.

Lemma prefix_split (p s : string) :
  String.prefix p s = true -> s = p +:+ str_drop (String.length p) s.
Proof.
  revert s. induction p as [|a p IH]; intros s H; [reflexivity |].
  destruct s as [|b s]; [discriminate |].
  cbn [String.prefix] in H. destruct (ascii_dec a b) as [->|]; [| discriminate].
  cbn [String.length str_drop]. rewrite append_cons. f_equal. apply IH, H.
Qed.

Lemma prefix_append (p s : string) : String.prefix p (p +:+ s) = true.
Proof.
  induction p as [|a p IH]; [destruct s; reflexivity |].
  rewrite append_cons. cbn [String.prefix].
  destruct (ascii_dec a a); [exact IH | congruence].
Qed.

Lemma prefix_append_l (p s t : string) :
  String.prefix p s = true -> String.prefix p (s +:+ t) = true.
Proof.
  intros H. rewrite (prefix_split p s H), append_assoc. apply prefix_append.
Qed.

Lemma str_contains_cons (c : ascii) (s old : string) :
  str_contains (String c s) old = false -> str_contains s old = false.
Proof. cbn [str_contains]. intros H. apply orb_false_elim in H. apply H. Qed.

Lemma str_contains_drop (n : nat) (s old : string) :
  str_contains s old = false -> str_contains (str_drop n s) old = false.
Proof.
  revert s. induction n as [|n IH]; intros s H; [exact H |].
  destruct s as [|c s]; [exact H |].
  cbn [str_drop]. apply IH. eapply str_contains_cons, H.
Qed.

(** Where [old] does not occur there is nothing to replace. *)
Lemma replace_from_absent (old new s : string) :
  str_contains s old = false -> replace_from old new O s = s.
Proof.
  induction s as [|c s IH]; intros H; [reflexivity |].
  cbn [replace_from].
  assert (String.prefix old (String c s) = false) as ->.
  { cbn [str_contains] in H. apply orb_false_elim in H. apply H. }
  f_equal. apply IH. eapply str_contains_cons, H.
Qed.

(** A string that starts with [http://] is rewritten at its start, and
    then on, in the same way, in what follows. *)
Lemma replace_leading_scheme (d : string) :
  str_startswith d "http://" = true ->
  str_replace d "http://" "https://"
  = "https://" +:+ str_replace (str_drop 7 d) "http://" "https://".
Proof.
  intros H. apply prefix_split in H.
  change (String.length "http://") with 7%nat in H.
  generalize dependent (str_drop 7 d). intros r ->.
  unfold str_replace. pose proof (prefix_append "http://" r) as Hp.
  cbv [String.append] in Hp |- *. cbn [replace_from].
  rewrite Hp. reflexivity.
Qed.

Lemma length_app (s t : string) :
  String.length (s +:+ t) = (String.length s + String.length t)%nat.
Proof.
  induction s as [|c s IH]; [reflexivity |].
  rewrite append_cons. cbn [String.length]. rewrite IH. reflexivity.
Qed.

(** Appending the same string on the right can be undone. *)
Lemma append_inv_tail (s1 s2 t : string) :
  s1 +:+ t = s2 +:+ t -> s1 = s2.
Proof.
  revert s2. induction s1 as [|c s1 IH]; intros s2 H.
  - destruct s2 as [|c' s2]; [reflexivity |]. exfalso.
    apply (f_equal String.length) in H. rewrite !length_app in H.
    cbn [String.length] in H. lia.
  - destruct s2 as [|c' s2].
    + exfalso. apply (f_equal String.length) in H. rewrite !length_app in H.
      cbn [String.length] in H. lia.
    + rewrite !append_cons in H. injection H as -> H. f_equal. apply IH, H.
Qed.

Lemma contains_after_https (x : string) :
  str_contains ("https://" +:+ x) "http://" = str_contains x "http://".
Proof. reflexivity. Qed.

(** Replacing does not bring the start of an [http://] to the front of a
    string that did not start with it: this holds for [http://] and for
    each of its suffixes. *)
Lemma replace_makes_no_prefix (u s : string) :
  u ∈ ["http://"; "ttp://"; "tp://"; "p://"; "://"; "//"; "/"; ""] ->
  String.prefix u (replace_from "http://" "https://" O s) = true ->
  String.prefix u s = true.
Proof.
  revert u. induction s as [|c s IH]; intros u Hu; [trivial |].
  cbn [replace_from].
  destruct (String.prefix "http://" (String c s)) eqn:Hstart.
  - generalize (replace_from "http://" "https://"
                  (Nat.pred (String.length "http://")) s).
    intros x Hx.
    repeat (apply elem_of_cons in Hu as [-> | Hu];
            [first [exact Hstart | discriminate Hx | reflexivity] |]).
    apply elem_of_nil in Hu. contradiction.
  - intros Hx.
    repeat (apply elem_of_cons in Hu as [-> | Hu];
            [first
               [ reflexivity
               | cbn [String.prefix] in Hx |- *;
                 destruct (ascii_dec _ c); [| discriminate Hx];
                 apply IH; [set_solver | exact Hx] ] |]).
    apply elem_of_nil in Hu. contradiction.
Qed.

Lemma replace_leaves_no_http (skip : nat) (s : string) :
  str_contains (replace_from "http://" "https://" skip s) "http://" = false.
Proof.
  revert skip. induction s as [|c s IH]; intros skip; [reflexivity |].
  cbn [replace_from]. destruct skip as [|k]; [| apply IH].
  destruct (String.prefix "http://" (String c s)) eqn:Hstart.
  - rewrite contains_after_https. apply IH.
  - cbn [str_contains]. rewrite IH, orb_false_r.
    destruct (String.prefix "http://"
                (String c (replace_from "http://" "https://" 0 s))) eqn:Hx;
      [| reflexivity].
    rewrite <- Hstart. symmetry.
    apply (replace_makes_no_prefix "http://" (String c s)); [set_solver |].
    cbn [replace_from]. rewrite Hstart. exact Hx.
Qed.

(** ** getCustomizedURL *)

(** What the three branches make of the lower-cased domain: in the
    first, [str.replace] goes on to rewrite every later [http://] too. *)
Lemma getCustomizedURL_cases (self : CloudFlareImages)
    (domain imageId variant : string) :
  getCustomizedURL self domain imageId variant =
  (if str_startswith (str_lower domain) "http://"
   then "https://"
          +:+ str_replace (str_drop 7 (str_lower domain)) "http://" "https://"
   else if str_startswith (str_lower domain) "https://"
        then str_lower domain
        else "https://" +:+ str_lower domain)
  +:+ "/cdn-cgi/imagedelivery/" +:+ accountHash self +:+ "/"
  +:+ imageId +:+ "/" +:+ variant.
Proof.
  unfold getCustomizedURL. cbv zeta.
  destruct (str_startswith (str_lower domain) "http://") eqn:Hhttp.
  - rewrite (replace_leading_scheme _ Hhttp). reflexivity.
  - destruct (str_startswith (str_lower domain) "https://"); reflexivity.
Qed.

Lemma getCustomizedURL_starts_with_https (self : CloudFlareImages)
    (domain imageId variant : string) :
  str_startswith (getCustomizedURL self domain imageId variant) "https://"
  = true.
Proof.
  rewrite getCustomizedURL_cases. unfold str_startswith.
  destruct (String.prefix "http://" (str_lower domain)).
  - rewrite append_assoc. apply prefix_append.
  - destruct (String.prefix "https://" (str_lower domain)) eqn:Hs.
    + apply prefix_append_l, Hs.
    + rewrite append_assoc. apply prefix_append.
Qed.

(** C3, as amended: [getCustomizedURL] is a pure function of its
    arguments and the instance, with no request.  Its result always
    starts with [https://].  Unless the lower-cased domain starts with
    [http://] and holds a further [http://] after it, the result is the
    lower-cased domain, with a leading [http://] turned into [https://]
    and a bare domain prefixed with [https://], followed by the fixed
    path; in the excepted case it is not.  [HTTP://Example.com] and
    [example.com] give the same URL. *)
Theorem getCustomizedURL_normalises :
  forall (self : CloudFlareImages) (domain imageId variant : string),
    str_startswith (getCustomizedURL self domain imageId variant) "https://"
      = true
    /\ ((str_startswith (str_lower domain) "http://" = true ->
         str_contains (str_drop 7 (str_lower domain)) "http://" = false)
        <-> getCustomizedURL self domain imageId variant
            = spec_getCustomizedURL self domain imageId variant)
    /\ getCustomizedURL self "HTTP://Example.com" "id1" "v1"
       = "https://example.com/cdn-cgi/imagedelivery/" +:+ accountHash self
           +:+ "/id1/v1"
    /\ getCustomizedURL self "example.com" "id1" "v1"
       = getCustomizedURL self "HTTP://Example.com" "id1" "v1".
Proof.
  intros self domain imageId variant.
  split; [apply getCustomizedURL_starts_with_https |].
  split; [| split; reflexivity].
  rewrite getCustomizedURL_cases.
  unfold spec_getCustomizedURL, spec_normalize_domain, str_startswith.
  cbv zeta.
  destruct (String.prefix "http://" (str_lower domain));
    [| split; [reflexivity | discriminate]].
  unfold str_replace. split.
  - intros Habsent. rewrite replace_from_absent; [reflexivity |].
    apply Habsent. reflexivity.
  - intros Heq _. rewrite !append_assoc in Heq.
    apply String.app_inj in Heq. apply append_inv_tail in Heq.
    rewrite <- Heq. apply replace_leaves_no_http.
Qed.

Lemma getCustomizedURL_normalises_witness :
  (str_startswith (str_lower "Example.com/HTTP://x") "http://" = true ->
   str_contains (str_drop 7 (str_lower "Example.com/HTTP://x")) "http://"
   = false)
  /\ getCustomizedURL client0 "Example.com/HTTP://x" "id1" "v1"
     = spec_getCustomizedURL client0 "Example.com/HTTP://x" "id1" "v1"
  /\ getCustomizedURL client0 "HTTP://Example.com" "id1" "v1"
     = spec_getCustomizedURL client0 "HTTP://Example.com" "id1" "v1".
Proof.
  split; [discriminate |].
  split.
  - destruct (getCustomizedURL_normalises client0 "Example.com/HTTP://x"
                "id1" "v1") as (_ & Hspec & _).
    apply Hspec. discriminate.
  - destruct (getCustomizedURL_normalises client0 "HTTP://Example.com"
                "id1" "v1") as (_ & Hspec & _).
    apply Hspec. reflexivity.
Defined.

(** C3, as stated, fails where [http://] occurs again inside the domain:
    [str.replace] rewrites every occurrence, not only the leading one. *)
Lemma getCustomizedURL_rewrites_inner_scheme :
  getCustomizedURL client0 "http://a.example/http://b" "id1" "v1"
    = "https://a.example/https://b/cdn-cgi/imagedelivery/hash/id1/v1"
  /\ spec_getCustomizedURL client0 "http://a.example/http://b" "id1" "v1"
    = "https://a.example/http://b/cdn-cgi/imagedelivery/hash/id1/v1"
  /\ getCustomizedURL client0 "http://a.example/http://b" "id1" "v1"
    <> spec_getCustomizedURL client0 "http://a.example/http://b" "id1" "v1".
Proof. split; [reflexivity |]. split; [reflexivity | discriminate]. Qed.

(** ** os.path.splitext *)

Lemma get_drop (n k : nat) (s : string) :
  String.get n (str_drop k s) = String.get (k + n) s.
Proof.
  revert s. induction k as [|k IH]; intros s; [reflexivity |].
  destruct s as [|c s]; [destruct n; reflexivity |].
  cbn [str_drop Nat.add String.get]. apply IH.
Qed.

Lemma take_drop (k : nat) (s : string) : str_take k s +:+ str_drop k s = s.
Proof.
  revert s. induction k as [|k IH]; intros s; [reflexivity |].
  destruct s as [|c s]; [reflexivity |].
  cbn [str_take str_drop]. rewrite append_cons, IH. reflexivity.
Qed.

Lemma drop_at (k : nat) (s : string) (c : ascii) :
  String.get k s = Some c -> str_drop k s = String c (str_drop (S k) s).
Proof.
  revert s. induction k as [|k IH]; intros s H.
  - destruct s as [|a s]; [discriminate |]. cbn in H. inversion H. reflexivity.
  - destruct s as [|a s]; [discriminate |]. cbn [String.get] in H.
    cbn [str_drop]. apply IH in H. exact H.
Qed.

(** [rfind] either finds nothing, or returns a position that holds the
    character and after which the character does not occur. *)
Lemma rfind_from_spec (c : ascii) (s : string) (i acc : Z) :
  (rfind_from c s i acc = acc /\ forall n, String.get n s <> Some c)
  \/ (i <= rfind_from c s i acc < i + Z.of_nat (String.length s)
      /\ String.get (Z.to_nat (rfind_from c s i acc - i)) s = Some c
      /\ forall n, (Z.to_nat (rfind_from c s i acc - i) < n)%nat ->
                   String.get n s <> Some c).
Proof.
  revert i acc. induction s as [|a s IH]; intros i acc.
  - left. split; [reflexivity |]. intros n. destruct n; discriminate.
  - cbn [rfind_from String.length].
    destruct (IH (i + 1) (if Ascii.eqb a c then i else acc))
      as [[Hacc Hnone] | (Hrange & Hget & Hafter)].
    + rewrite Hacc. destruct (Ascii.eqb_spec a c) as [-> | Hne].
      * right. rewrite Z.sub_diag. split; [lia |]. split; [reflexivity |].
        intros n Hn. destruct n as [|n]; [lia |]. apply Hnone.
      * left. split; [reflexivity |].
        intros [|n]; [cbn; congruence | apply Hnone].
    + right. set (r := rfind_from c s (i + 1) _) in *.
      assert (Z.to_nat (r - i) = S (Z.to_nat (r - (i + 1)))) as -> by lia.
      split; [lia |]. split; [exact Hget |].
      intros [|n] Hn; [lia |]. apply Hafter. lia.
Qed.

Lemma str_rfind_spec (s : string) (c : ascii) :
  (str_rfind s c = -1 /\ forall n, String.get n s <> Some c)
  \/ (0 <= str_rfind s c
      /\ String.get (Z.to_nat (str_rfind s c)) s = Some c
      /\ forall n, (Z.to_nat (str_rfind s c) < n)%nat ->
                   String.get n s <> Some c).
Proof.
  unfold str_rfind.
  destruct (rfind_from_spec c s 0 (-1)) as [H | (Hrange & Hget & Hafter)];
    [left; exact H | right].
  rewrite Z.sub_0_r in Hget, Hafter. split; [lia |]. split; assumption.
Qed.

Lemma splitext_loop_cases (p : string) (extsep : ascii) (dotIndex : Z)
    (n : nat) (filenameIndex : Z) :
  splitext_loop p extsep dotIndex n filenameIndex = (p, EmptyString)
  \/ splitext_loop p extsep dotIndex n filenameIndex
     = (str_take (Z.to_nat dotIndex) p, str_drop (Z.to_nat dotIndex) p).
Proof.
  revert filenameIndex. induction n as [|n IH]; intros fi; [left; reflexivity |].
  cbn [splitext_loop]. destruct (negb _); [right; reflexivity | apply IH].
Qed.

(** The two parts that [splitext] returns make up the path. *)
Lemma splitext_concat (p : string) :
  fst (os_path_splitext p) +:+ snd (os_path_splitext p) = p.
Proof.
  unfold os_path_splitext, _splitext. cbv zeta.
  destruct (_ >? _)%Z.
  - destruct (splitext_loop_cases p "." (str_rfind p ".")
                (Z.to_nat (str_rfind p "." - (str_rfind p "/" + 1)))
                (str_rfind p "/" + 1)) as [-> | ->]; cbn [fst snd].
    + clear. induction p as [|c p IH]; [reflexivity |].
      rewrite append_cons, IH. reflexivity.
    + apply take_drop.
  - cbn [fst snd]. clear. induction p as [|c p IH]; [reflexivity |].
    rewrite append_cons, IH. reflexivity.
Qed.

(** The extension is empty, or it is the last dot of the path and what
    follows it, in which there is no further dot and no slash. *)
Lemma splitext_extension_shape (p : string) :
  snd (os_path_splitext p) = EmptyString
  \/ exists rest : string,
       snd (os_path_splitext p) = String "." rest
       /\ (forall n, String.get n rest <> Some "."%char)
       /\ (forall n, String.get n rest <> Some "/"%char).
Proof.
  unfold os_path_splitext, _splitext. cbv zeta.
  destruct (Z.gtb_spec (str_rfind p ".") (str_rfind p "/")) as [Hgt | Hle];
    [| left; reflexivity].
  destruct (splitext_loop_cases p "." (str_rfind p ".")
              (Z.to_nat (str_rfind p "." - (str_rfind p "/" + 1)))
              (str_rfind p "/" + 1)) as [-> | ->]; [left; reflexivity |].
  right. cbn [snd].
  destruct (str_rfind_spec p ".") as [[Hdot _] | (Hdot & Hget & Hafter)].
  { destruct (str_rfind_spec p "/") as [[Hsep _] | (Hsep & _)]; lia. }
  exists (str_drop (S (Z.to_nat (str_rfind p "."))) p).
  split; [apply drop_at, Hget |].
  split; intros n; rewrite get_drop.
  - apply Hafter. lia.
  - destruct (str_rfind_spec p "/") as [[_ Hnone] | (Hsep & _ & Hnone)];
      apply Hnone. lia.
Qed.

(** ** The format check *)

Lemma supported_formats_lower_case (e : string) :
  e ∈ [".png"; ".gif"; ".jpeg"; ".jpg"; ".webp"; ".svg"] -> str_lower e = e.
Proof.
  intros He. repeat (apply elem_of_cons in He as [-> | He]; [reflexivity |]).
  apply elem_of_nil in He. contradiction.
Qed.

(** C7: on an instance built by the constructor, the format check answers
    [true] exactly when the extension that [os.path.splitext] finds in
    the path equals, up to case, one of [.png], [.gif], [.jpeg], [.jpg],
    [.webp], [.svg]; it accepts [photo.PNG] and rejects [photo.bmp]. *)
Theorem checkIfImageSupported_iff_extension_allowed :
  forall (apiKey accountId email accountHash path : string),
    (_checkIfImageSupported (__init__ apiKey accountId email accountHash) path
       = true
     <-> exists e : string,
           e ∈ [".png"; ".gif"; ".jpeg"; ".jpg"; ".webp"; ".svg"]
           /\ str_lower (snd (os_path_splitext path)) = str_lower e)
    /\ _checkIfImageSupported (__init__ apiKey accountId email accountHash)
         "photo.PNG" = true
    /\ _checkIfImageSupported (__init__ apiKey accountId email accountHash)
         "photo.bmp" = false.
Proof.
  intros apiKey accountId email accountHash path.
  split; [| split; reflexivity].
  unfold _checkIfImageSupported. cbv zeta. cbn [SUPPORTED_FORMATS __init__].
  rewrite bool_decide_eq_true. split.
  - intros Hin. eexists. split; [exact Hin |].
    symmetry. apply supported_formats_lower_case, Hin.
  - intros (e & He & Heq). rewrite Heq.
    rewrite (supported_formats_lower_case e He). exact He.
Qed.

(** ** updateVariant *)

Lemma choose_run (b : bool) (x y : value) w log :
  (if b then mret x else lift (Return y)) w log
  = (Return (if b then x else y), log).
Proof. destruct b; reflexivity. Qed.

Ltac lift_step H := rewrite bind_run, lift_run, H; cbv beta iota.
Ltac choose_step := rewrite bind_run, choose_run; cbv beta iota.

Lemma getVariantDetails_run (self : CloudFlareImages) (name : string) :
  getVariantDetails self name = fetch_json (variant_get self name).
Proof. reflexivity. Qed.

(** When the fetch answers with a variant whose options hold the four
    fields, [updateVariant] goes on to post this payload and returns the
    decoded answer to the post. *)
Lemma updateVariant_run (self : CloudFlareImages) (name fitType : string)
    (width height : Z) (metaDataToSave : string) (w : world) (log : list event)
    (resp : response) (fetched details d_fit d_metadata d_width d_height : value) :
  http_reply w log (variant_get self name) = Some resp ->
  resp_json resp = Some fetched ->
  fetched_details fetched name = Return details ->
  subscript details "fit" = Return d_fit ->
  subscript details "metadata" = Return d_metadata ->
  subscript details "width" = Return d_width ->
  subscript details "height" = Return d_height ->
  updateVariant self name fitType width height metaDataToSave w log
  = fetch_json
      (variant_post self name
         (<["height" := if ne_int d_height height then VInt width else d_height]>
            (<["width" := if ne_int d_width width then VInt width else d_width]>
               (<["metadata" := if ne_str d_metadata metaDataToSave
                                then VStr metaDataToSave else d_metadata]>
                  (<["fit" := if ne_str d_fit fitType
                              then VStr fitType else d_fit]> ∅)))))
      w (log ++ [EvHttp (variant_get self name)])%list.
Proof.
  intros Hreply Hjson Hdetails Hfit Hmeta Hwidth Hheight.
  unfold fetched_details in Hdetails.
  destruct (subscript fetched "result") as [result|] eqn:Hresult; [| discriminate].
  destruct (subscript result name) as [variant|] eqn:Hvariant; [| discriminate].
  unfold updateVariant.
  rewrite (bind_return _ _ w log fetched (log ++ [EvHttp (variant_get self name)])%list).
  2:{ rewrite getVariantDetails_run, fetch_json_run, Hreply, Hjson. reflexivity. }
  cbv beta iota.
  lift_step Hresult. lift_step Hvariant. lift_step Hdetails.
  lift_step Hfit. choose_step.
  lift_step Hmeta. choose_step.
  lift_step Hwidth. choose_step.
  lift_step Hheight. choose_step.
  reflexivity.
Qed.

Lemma posted_field_fetch_json (r : request) (k : string) w log :
  posted_field (snd (fetch_json r w log)) k = req_json r ≫= (.!! k).
Proof.
  rewrite fetch_json_run. unfold posted_field. cbn [snd].
  rewrite requests_of_app. change (requests_of [EvHttp r]) with [r].
  rewrite last_snoc. reflexivity.
Qed.

(** For fit, metadata and width the posted value is the argument when it
    differs from the fetched value and the fetched value otherwise. *)
Lemma updateVariant_posted_fit_metadata_width (self : CloudFlareImages)
    (name fitType : string) (width height : Z) (metaDataToSave : string)
    (w : world) (log : list event) (resp : response)
    (fetched details d_fit d_metadata d_width d_height : value) :
  http_reply w log (variant_get self name) = Some resp ->
  resp_json resp = Some fetched ->
  fetched_details fetched name = Return details ->
  subscript details "fit" = Return d_fit ->
  subscript details "metadata" = Return d_metadata ->
  subscript details "width" = Return d_width ->
  subscript details "height" = Return d_height ->
  let log' :=
    snd (updateVariant self name fitType width height metaDataToSave w log) in
  posted_field log' "fit"
    = Some (if ne_str d_fit fitType then VStr fitType else d_fit)
  /\ posted_field log' "metadata"
    = Some (if ne_str d_metadata metaDataToSave
            then VStr metaDataToSave else d_metadata)
  /\ posted_field log' "width"
    = Some (if ne_int d_width width then VInt width else d_width).
Proof.
  intros Hreply Hjson Hdetails Hfit Hmeta Hwidth Hheight. cbv zeta.
  rewrite (updateVariant_run self name fitType width height metaDataToSave
             w log resp fetched details d_fit d_metadata d_width d_height)
    by assumption.
  rewrite !posted_field_fetch_json. cbn [variant_post req_json mbind option_bind].
  repeat split; simplify_map_eq; reflexivity.
Qed.

(** C1 at the failing input: the server holds fit [cover], width 100,
    height 200, metadata [none], and the call asks for fit [cover],
    width 150, height 250, metadata [keep].  The fetch comes first and
    the post second; fit, metadata and width are as the claim says, but
    the posted height is the new width, 150, not the new height, 250. *)
Theorem updateVariant_changed_height_posts_width :
  let log :=
    snd (updateVariant client0 "thumb" "cover" 150 250 "keep" thumb_world [])
  in
  requests_of log =
    [ variant_get client0 "thumb";
      variant_post client0 "thumb"
        (<["height" := VInt 150]> (<["width" := VInt 150]>
           (<["metadata" := VStr "keep"]> (<["fit" := VStr "cover"]> ∅)))) ]
  /\ posted_field log "fit" = Some (VStr "cover")
  /\ posted_field log "metadata" = Some (VStr "keep")
  /\ posted_field log "width" = Some (VInt 150)
  /\ posted_field log "height" = Some (VInt 150)
  /\ posted_field log "height" <> Some (VInt 250).
Proof.
  cbv zeta. repeat split; try (vm_compute; reflexivity).
  vm_compute. discriminate.
Qed.

(** C2, as stated, fails when the height is unchanged: with the server
    holding width 100 and height 200, a call with width 150 and height
    200 posts the fetched height, 200, which is neither the fetched
    width nor the new width. *)
Lemma updateVariant_unchanged_height_kept :
  let log :=
    snd (updateVariant client0 "thumb" "cover" 150 200 "keep" thumb_world [])
  in
  ne_int (VInt 200) 200 = false
  /\ posted_field log "height" = thumb_options !! "height"
  /\ posted_field log "height" = Some (VInt 200)
  /\ posted_field log "height" <> thumb_options !! "width"
  /\ posted_field log "height" <> Some (VInt 150).
Proof.
  cbv zeta. repeat split; try (vm_compute; reflexivity);
    vm_compute; discriminate.
Qed.

(** C2, as amended: in the payload that [updateVariant] posts, the
    height is decided by comparing the fetched height with the height
    argument; when they are equal the fetched height is kept, and when
    they differ the posted value is the width argument. *)
Theorem updateVariant_posted_height :
  forall (self : CloudFlareImages) (name fitType : string) (width height : Z)
         (metaDataToSave : string) (w : world) (log : list event)
         (resp : response)
         (fetched details d_fit d_metadata d_width d_height : value),
    http_reply w log (variant_get self name) = Some resp ->
    resp_json resp = Some fetched ->
    fetched_details fetched name = Return details ->
    subscript details "fit" = Return d_fit ->
    subscript details "metadata" = Return d_metadata ->
    subscript details "width" = Return d_width ->
    subscript details "height" = Return d_height ->
    posted_field
      (snd (updateVariant self name fitType width height metaDataToSave w log))
      "height"
    = Some (if ne_int d_height height then VInt width else d_height).
Proof.
  intros self name fitType width height metaDataToSave w log resp fetched
    details d_fit d_metadata d_width d_height
    Hreply Hjson Hdetails Hfit Hmeta Hwidth Hheight.
  rewrite (updateVariant_run self name fitType width height metaDataToSave
             w log resp fetched details d_fit d_metadata d_width d_height)
    by assumption.
  rewrite posted_field_fetch_json. cbn [variant_post req_json].
  cbn [mbind option_bind]. apply lookup_insert_eq.
Qed.

Lemma updateVariant_posted_height_witness :
  posted_field
    (snd (updateVariant client0 "thumb" "cover" 150 200 "keep" thumb_world []))
    "height"
  = Some (if ne_int (VInt 200) 200 then VInt 150 else VInt 200).
Proof.
  apply (updateVariant_posted_height client0 "thumb" "cover" 150 200 "keep"
           thumb_world [] (mkResponse thumb_body (Some thumb_details))
           thumb_details (VDict thumb_options)
           (VStr "cover") (VStr "none") (VInt 100) (VInt 200));
    reflexivity.
Defined.

(** ** upload *)



(** A readable file has no NUL in its path. *)
Lemma readable_path_has_no_nul (w : world) (path bytes : string) :
  fs_read w path = Some bytes -> has_char NUL path = false.
Proof.
  intros Hfs. destruct (has_char NUL path) eqn:Hnul; [| reflexivity].
  rewrite (fs_no_nul w path Hnul) in Hfs. discriminate Hfs.
Qed.

Lemma open_rb_run (path bytes : string) w log :
  fs_read w path = Some bytes ->
  open_rb path w log
  = (Return (mkFile path bytes), (log ++ [EvOpen (mkFile path bytes)])%list).
Proof.
  intros Hfs. unfold open_rb.
  rewrite (readable_path_has_no_nul w path bytes Hfs), Hfs. reflexivity.
Qed.

(** With the file open and the URL found, [upload] posts the file and
    returns the text of the answer. *)
Lemma upload_run (self : CloudFlareImages) (d result uploadURL : value)
    (path bytes : string) w log :
  fs_read w path = Some bytes ->
  subscript d "result" = Return result ->
  subscript result "uploadURL" = Return uploadURL ->
  upload self d path w log
  = (match http_reply w (log ++ [EvOpen (mkFile path bytes)])%list
             (upload_post self uploadURL (mkFile path bytes)) with
     | Some resp => Return (resp_text resp)
     | None => Raise RequestException
     end,
     (log ++ [EvOpen (mkFile path bytes);
              EvHttp (upload_post self uploadURL (mkFile path bytes))])%list).
Proof.
  intros Hfs Hresult Hurl. unfold upload.
  rewrite bind_run, (open_rb_run _ _ _ _ Hfs). cbv beta iota.
  lift_step Hresult. lift_step Hurl.
  rewrite bind_run. unfold requests_post, send, upload_post.
  rewrite <- app_assoc. cbn [app].
  destruct (http_reply w _ _); reflexivity.
Qed.

(** With the file open, a missing key stops [upload] before any request. *)
Lemma upload_missing_result (self : CloudFlareImages) (d : value)
    (path bytes : string) (e : exn) w log :
  fs_read w path = Some bytes ->
  subscript d "result" = Raise e ->
  upload self d path w log
  = (Raise e, (log ++ [EvOpen (mkFile path bytes)])%list).
Proof.
  intros Hfs Hresult. unfold upload.
  rewrite bind_run, (open_rb_run _ _ _ _ Hfs). cbv beta iota.
  lift_step Hresult. reflexivity.
Qed.

Lemma upload_missing_uploadURL (self : CloudFlareImages) (d result : value)
    (path bytes : string) (e : exn) w log :
  fs_read w path = Some bytes ->
  subscript d "result" = Return result ->
  subscript result "uploadURL" = Raise e ->
  upload self d path w log
  = (Raise e, (log ++ [EvOpen (mkFile path bytes)])%list).
Proof.
  intros Hfs Hresult Hurl. unfold upload.
  rewrite bind_run, (open_rb_run _ _ _ _ Hfs). cbv beta iota.
  lift_step Hresult. lift_step Hurl. reflexivity.
Qed.

(** A [result] that is not a dict, such as the [null] of a failed
    answer, makes the second subscription a [TypeError]. *)
Lemma upload_result_not_a_dict (self : CloudFlareImages)
    (d : gmap string value) (path bytes : string) w log :
  fs_read w path = Some bytes ->
  d !! "result" = Some VNone ->
  upload self (VDict d) path w log
  = (Raise TypeError, (log ++ [EvOpen (mkFile path bytes)])%list).
Proof.
  intros Hfs Hd.
  apply (upload_missing_uploadURL self (VDict d) VNone); [exact Hfs | |].
  - cbn [subscript]. rewrite Hd. reflexivity.
  - reflexivity.
Qed.

(** Subscribing anything but a dict with a [str] key is a [TypeError]. *)
Lemma subscript_not_a_dict (v : value) (k : string) :
  is_dict v = false -> subscript v k = Raise TypeError.
Proof. destruct v; (reflexivity || discriminate). Qed.

(** C10, as amended: when the file at [imagePath] opens, a descriptor
    dict without the key [result] makes [upload] raise [KeyError] for
    [result], and a descriptor whose [result] is a dict that lacks
    [uploadURL] makes it raise [KeyError] for [uploadURL]; when
    [result] is not a dict, as the [null] of a failure answer, what is
    raised is [TypeError].  In each case the log then holds the opening
    of the file and no request. *)
Theorem upload_missing_key_raises_KeyError :
  forall (self : CloudFlareImages) (d : gmap string value)
         (path bytes : string) (w : world) (log : list event),
    fs_read w path = Some bytes ->
    (d !! "result" = None ->
     upload self (VDict d) path w log
     = (Raise (KeyError "result"), (log ++ [EvOpen (mkFile path bytes)])%list))
    /\ (forall result : gmap string value,
          d !! "result" = Some (VDict result) ->
          result !! "uploadURL" = None ->
          upload self (VDict d) path w log
          = (Raise (KeyError "uploadURL"),
             (log ++ [EvOpen (mkFile path bytes)])%list))
    /\ (forall result : value,
          d !! "result" = Some result ->
          is_dict result = false ->
          upload self (VDict d) path w log
          = (Raise TypeError, (log ++ [EvOpen (mkFile path bytes)])%list))
    /\ requests_of (log ++ [EvOpen (mkFile path bytes)])%list
       = requests_of log.
Proof.
  intros self d path bytes w log Hfs. split; [| split; [| split]].
  - intros Hd. apply upload_missing_result; [exact Hfs |].
    cbn [subscript]. rewrite Hd. reflexivity.
  - intros result Hd Hr.
    apply (upload_missing_uploadURL self (VDict d) (VDict result));
      [exact Hfs | |]; cbn [subscript].
    + rewrite Hd. reflexivity.
    + rewrite Hr. reflexivity.
  - intros result Hd Hnot.
    apply (upload_missing_uploadURL self (VDict d) result); [exact Hfs | |].
    + cbn [subscript]. rewrite Hd. reflexivity.
    + apply subscript_not_a_dict, Hnot.
  - rewrite requests_of_app. apply app_nil_r.
Qed.

Lemma upload_missing_key_raises_KeyError_witness :
  upload client0 (VDict {["success" := VBool false]}) "photo.bmp" plain_world []
    = (Raise (KeyError "result"), [EvOpen (mkFile "photo.bmp" "BM")])
  /\ upload client0 (VDict {["result" := VDict {["id" := VStr "img1"]}]})
       "photo.bmp" plain_world []
    = (Raise (KeyError "uploadURL"), [EvOpen (mkFile "photo.bmp" "BM")])
  /\ upload client0 (VDict {["result" := VStr "img1"]}) "photo.bmp"
       plain_world []
    = (Raise TypeError, [EvOpen (mkFile "photo.bmp" "BM")])
  /\ requests_of [EvOpen (mkFile "photo.bmp" "BM")] = [].
Proof.
  split.
  { destruct (upload_missing_key_raises_KeyError client0
                {["success" := VBool false]} "photo.bmp" "BM" plain_world []
                eq_refl) as (Hresult & _).
    apply Hresult. reflexivity. }
  split.
  { destruct (upload_missing_key_raises_KeyError client0
                {["result" := VDict {["id" := VStr "img1"]}]}
                "photo.bmp" "BM" plain_world [] eq_refl)
      as (_ & Hurl & _).
    apply (Hurl {["id" := VStr "img1"]}); reflexivity. }
  destruct (upload_missing_key_raises_KeyError client0
              {["result" := VStr "img1"]} "photo.bmp" "BM" plain_world []
              eq_refl)
    as (_ & _ & Htype & Hnone).
  split; [| exact Hnone].
  apply (Htype (VStr "img1")); reflexivity.
Defined.

(** C10, as stated, fails for a descriptor whose [result] is [null]: the
    value under [result] holds no [uploadURL], the file opens, and yet
    what [upload] raises is [TypeError], not a [KeyError]. *)
Lemma upload_null_result_raises_TypeError :
  (forall v : value, subscript VNone "uploadURL" <> Return v)
  /\ fs_read plain_world "photo.bmp" = Some "BM"
  /\ upload client0 (VDict {["result" := VNone]}) "photo.bmp" plain_world []
     = (Raise TypeError, [EvOpen (mkFile "photo.bmp" "BM")])
  /\ forall key : string,
       fst (upload client0 (VDict {["result" := VNone]}) "photo.bmp"
              plain_world [])
       <> Raise (KeyError key).
Proof.
  split; [discriminate |]. split; [reflexivity |].
  split; [reflexivity | discriminate].
Qed.

(** ** Decoded answers *)









(** ** The declared limits *)

(** C8: no call consults the format list or the size and dimension
    limits: with any other values for these class attributes every call,
    and the URL builder, behave the same.  In particular [upload] runs no
    check: for every path and every content of the file there, once the
    file opens and the descriptor names the upload URL, the file is
    posted to that URL. *)
Theorem limits_never_consulted :
  forall (self : CloudFlareImages) (formats : list string)
         (maxWidth maxHeight maxSizeMB : Z),
    (forall o : op,
       call (with_limits self formats maxWidth maxHeight maxSizeMB) o
       = call self o)
    /\ (forall domain imageId variant : string,
          getCustomizedURL (with_limits self formats maxWidth maxHeight maxSizeMB)
            domain imageId variant
          = getCustomizedURL self domain imageId variant)
    /\ (forall (d result uploadURL : value) (path bytes : string)
               (w : world) (log : list event),
          fs_read w path = Some bytes ->
          subscript d "result" = Return result ->
          subscript result "uploadURL" = Return uploadURL ->
          snd (upload (with_limits self formats maxWidth maxHeight maxSizeMB)
                 d path w log)
          = (log ++ [EvOpen (mkFile path bytes);
                     EvHttp (upload_post self uploadURL (mkFile path bytes))])%list).
Proof.
  intros self formats maxWidth maxHeight maxSizeMB.
  split; [intros o; destruct o; reflexivity |].
  split; [reflexivity |].
  intros d result uploadURL path bytes w log Hfs Hresult Hurl.
  rewrite (upload_run _ d result uploadURL path bytes w log Hfs Hresult Hurl).
  reflexivity.
Qed.

Lemma limits_never_consulted_witness :
  _checkIfImageSupported client0 "photo.bmp" = false
  /\ snd (upload (with_limits client0 [] 0 0 0) upload_slot "photo.bmp"
            plain_world [])
    = [EvOpen (mkFile "photo.bmp" "BM");
       EvHttp (upload_post client0 (VStr "https://x/up")
                 (mkFile "photo.bmp" "BM"))].
Proof.
  split; [reflexivity |].
  destruct (limits_never_consulted client0 [] 0 0 0) as (_ & _ & Hupload).
  apply (Hupload upload_slot
           (VDict (<["uploadURL" := VStr "https://x/up"]>
                     {["id" := VStr "img1"]}))
           (VStr "https://x/up") "photo.bmp" "BM" plain_world []);
    reflexivity.
Defined.

(** * Further properties of the methods *)

(** ** updateVariant: when the fetch does not yield the options *)

Lemma bind_raise {A B : Type} (m : M A) (k : A -> M B) w log e log' :
  m w log = (Raise e, log') -> (m ≫= k) w log = (Raise e, log').
Proof. intros H. rewrite bind_run, H. reflexivity. Qed.

Lemma getVariantDetails_fetched (self : CloudFlareImages) (name : string)
    w log resp fetched :
  http_reply w log (variant_get self name) = Some resp ->
  resp_json resp = Some fetched ->
  getVariantDetails self name w log
  = (Return fetched, (log ++ [EvHttp (variant_get self name)])%list).
Proof.
  intros Hreply Hjson.
  rewrite getVariantDetails_run, fetch_json_run, Hreply, Hjson. reflexivity.
Qed.

(** X1: [updateVariant] posts nothing unless its fetch yields the options
    of the variant.  If [requests] raises on the fetch, or the answer is
    not JSON, or the decoded answer lacks [result], the variant's name
    or [options] (or one of them is not a dict), the exception of that
    step is what [updateVariant] raises, and the fetch is the only
    request it has sent. *)
Theorem updateVariant_fetch_failure_sends_no_post :
  forall (self : CloudFlareImages) (name fitType : string) (width height : Z)
         (metaDataToSave : string) (w : world) (log : list event),
    (http_reply w log (variant_get self name) = None ->
     updateVariant self name fitType width height metaDataToSave w log
     = (Raise RequestException, (log ++ [EvHttp (variant_get self name)])%list))
    /\ (forall resp : response,
          http_reply w log (variant_get self name) = Some resp ->
          resp_json resp = None ->
          updateVariant self name fitType width height metaDataToSave w log
          = (Raise JSONDecodeError,
             (log ++ [EvHttp (variant_get self name)])%list))
    /\ (forall (resp : response) (fetched : value) (e : exn),
          http_reply w log (variant_get self name) = Some resp ->
          resp_json resp = Some fetched ->
          fetched_details fetched name = Raise e ->
          updateVariant self name fitType width height metaDataToSave w log
          = (Raise e, (log ++ [EvHttp (variant_get self name)])%list)).
Proof.
  intros self name fitType width height metaDataToSave w log.
  split; [| split].
  - intros Hreply. unfold updateVariant.
    apply bind_raise. rewrite getVariantDetails_run, fetch_json_run, Hreply.
    reflexivity.
  - intros resp Hreply Hjson. unfold updateVariant.
    apply bind_raise.
    rewrite getVariantDetails_run, fetch_json_run, Hreply, Hjson. reflexivity.
  - intros resp fetched e Hreply Hjson Hdetails. unfold updateVariant.
    rewrite (bind_return _ _ w log fetched
               (log ++ [EvHttp (variant_get self name)])%list)
      by (apply getVariantDetails_fetched with resp; assumption).
    unfold fetched_details in Hdetails.
    destruct (subscript fetched "result") as [result|e1] eqn:Hresult.
    2:{ inversion Hdetails; subst. apply bind_raise. reflexivity. }
    rewrite bind_run, lift_run. cbv beta iota.
    destruct (subscript result name) as [variant|e2] eqn:Hvariant.
    2:{ inversion Hdetails; subst. apply bind_raise. reflexivity. }
    rewrite bind_run, lift_run. cbv beta iota.
    apply bind_raise. rewrite lift_run, Hdetails. reflexivity.
Qed.

Lemma updateVariant_fetch_failure_sends_no_post_witness :
  updateVariant client0 "thumb" "cover" 150 250 "keep" dead_world []
    = (Raise RequestException, [EvHttp (variant_get client0 "thumb")])
  /\ updateVariant client0 "thumb" "cover" 150 250 "keep" plain_world []
    = (Raise JSONDecodeError, [EvHttp (variant_get client0 "thumb")])
  /\ updateVariant client0 "thumb" "cover" 150 250 "keep" refusing_world []
    = (Raise (KeyError "result"), [EvHttp (variant_get client0 "thumb")]).
Proof.
  split; [| split].
  - destruct (updateVariant_fetch_failure_sends_no_post client0 "thumb" "cover"
                150 250 "keep" dead_world []) as (H & _).
    apply H. reflexivity.
  - destruct (updateVariant_fetch_failure_sends_no_post client0 "thumb" "cover"
                150 250 "keep" plain_world []) as (_ & H & _).
    apply (H (mkResponse "ok" None)); reflexivity.
  - destruct (updateVariant_fetch_failure_sends_no_post client0 "thumb" "cover"
                150 250 "keep" refusing_world []) as (_ & _ & H).
    eapply H; reflexivity.
Defined.

(** X2: when the fetched options are a dict that lacks one of [fit],
    [metadata], [width], [height], [updateVariant] raises [KeyError] for
    the first missing one, in that order, and the fetch is the only
    request it has sent: a partial options dict is never posted back. *)
Theorem updateVariant_missing_option_raises_KeyError :
  forall (self : CloudFlareImages) (name fitType : string) (width height : Z)
         (metaDataToSave : string) (w : world) (log : list event)
         (resp : response) (fetched : value) (d : gmap string value)
         (k : string),
    http_reply w log (variant_get self name) = Some resp ->
    resp_json resp = Some fetched ->
    fetched_details fetched name = Return (VDict d) ->
    first_missing d = Some k ->
    updateVariant self name fitType width height metaDataToSave w log
    = (Raise (KeyError k), (log ++ [EvHttp (variant_get self name)])%list).
Proof.
  intros self name fitType width height metaDataToSave w log resp fetched d k
    Hreply Hjson Hdetails Hmissing.
  unfold fetched_details in Hdetails.
  destruct (subscript fetched "result") as [result|] eqn:Hresult; [| discriminate].
  destruct (subscript result name) as [variant|] eqn:Hvariant; [| discriminate].
  unfold updateVariant.
  rewrite (bind_return _ _ w log fetched
             (log ++ [EvHttp (variant_get self name)])%list)
    by (apply getVariantDetails_fetched with resp; assumption).
  lift_step Hresult. lift_step Hvariant. lift_step Hdetails.
  unfold first_missing, option_keys in Hmissing. cbn [List.find] in Hmissing.
  cbn [subscript].
  destruct (d !! "fit") as [d_fit|];
    [| inversion Hmissing; apply bind_raise; reflexivity].
  rewrite bind_run, lift_run. cbv beta iota. choose_step.
  destruct (d !! "metadata") as [d_metadata|];
    [| inversion Hmissing; apply bind_raise; reflexivity].
  rewrite bind_run, lift_run. cbv beta iota. choose_step.
  destruct (d !! "width") as [d_width|];
    [| inversion Hmissing; apply bind_raise; reflexivity].
  rewrite bind_run, lift_run. cbv beta iota. choose_step.
  destruct (d !! "height") as [d_height|];
    [discriminate | inversion Hmissing; apply bind_raise; reflexivity].
Qed.

Lemma updateVariant_missing_option_raises_KeyError_witness :
  updateVariant client0 "thumb" "cover" 150 250 "keep" narrow_world []
  = (Raise (KeyError "width"), [EvHttp (variant_get client0 "thumb")]).
Proof.
  eapply (updateVariant_missing_option_raises_KeyError client0 "thumb" "cover"
            150 250 "keep" narrow_world []);
    reflexivity.
Defined.

(** ** updateVariant: the requests it sends *)

(** When one of the four fields cannot be read from the fetched options,
    in the order the payload reads them, the exception of that reading
    ends the call after the fetch. *)
Lemma updateVariant_option_raises (self : CloudFlareImages)
    (name fitType : string) (width height : Z) (metaDataToSave : string)
    (w : world) (log : list event) (resp : response)
    (fetched details : value) (e : exn) :
  http_reply w log (variant_get self name) = Some resp ->
  resp_json resp = Some fetched ->
  fetched_details fetched name = Return details ->
  (subscript details "fit" = Raise e
   \/ (exists a, subscript details "fit" = Return a)
      /\ (subscript details "metadata" = Raise e
          \/ (exists b, subscript details "metadata" = Return b)
             /\ (subscript details "width" = Raise e
                 \/ (exists c, subscript details "width" = Return c)
                    /\ subscript details "height" = Raise e))) ->
  updateVariant self name fitType width height metaDataToSave w log
  = (Raise e, (log ++ [EvHttp (variant_get self name)])%list).
Proof.
  intros Hreply Hjson Hdetails Hfield.
  unfold fetched_details in Hdetails.
  destruct (subscript fetched "result") as [result|] eqn:Hresult; [| discriminate].
  destruct (subscript result name) as [variant|] eqn:Hvariant; [| discriminate].
  unfold updateVariant.
  rewrite (bind_return _ _ w log fetched
             (log ++ [EvHttp (variant_get self name)])%list)
    by (apply getVariantDetails_fetched with resp; assumption).
  lift_step Hresult. lift_step Hvariant. lift_step Hdetails.
  destruct Hfield as [Hfit | [[a Hfit] Hfield]];
    [apply bind_raise; rewrite lift_run, Hfit; reflexivity |].
  lift_step Hfit. choose_step.
  destruct Hfield as [Hmeta | [[b Hmeta] Hfield]];
    [apply bind_raise; rewrite lift_run, Hmeta; reflexivity |].
  lift_step Hmeta. choose_step.
  destruct Hfield as [Hwidth | [[c Hwidth] Hheight]];
    [apply bind_raise; rewrite lift_run, Hwidth; reflexivity |].
  lift_step Hwidth. choose_step.
  apply bind_raise. rewrite lift_run, Hheight. reflexivity.
Qed.

(** The log of [updateVariant], whatever the world answers. *)
Lemma updateVariant_log_cases :
  forall (self : CloudFlareImages) (name fitType : string) (width height : Z)
         (metaDataToSave : string) (w : world) (log : list event),
    snd (updateVariant self name fitType width height metaDataToSave w log)
      = (log ++ [EvHttp (variant_get self name)])%list
    \/ exists payload : gmap string value,
         snd (updateVariant self name fitType width height metaDataToSave w log)
           = (log ++ [EvHttp (variant_get self name);
                      EvHttp (variant_post self name payload)])%list
         /\ dom payload = {["fit"; "metadata"; "width"; "height"]}.
Proof.
  intros self name fitType width height metaDataToSave w log.
  destruct (updateVariant_fetch_failure_sends_no_post self name fitType width
              height metaDataToSave w log) as (Hdead & Hnojson & Hnodetails).
  destruct (http_reply w log (variant_get self name)) as [resp|] eqn:Hreply;
    [| left; rewrite (Hdead eq_refl); reflexivity].
  destruct (resp_json resp) as [fetched|] eqn:Hjson;
    [| left; rewrite (Hnojson resp eq_refl Hjson); reflexivity].
  destruct (fetched_details fetched name) as [details|e] eqn:Hdetails;
    [| left; rewrite (Hnodetails resp fetched e eq_refl Hjson Hdetails);
       reflexivity].
  clear Hdead Hnojson Hnodetails.
  assert (forall e,
    (subscript details "fit" = Raise e
     \/ (exists a, subscript details "fit" = Return a)
        /\ (subscript details "metadata" = Raise e
            \/ (exists b, subscript details "metadata" = Return b)
               /\ (subscript details "width" = Raise e
                   \/ (exists c, subscript details "width" = Return c)
                      /\ subscript details "height" = Raise e))) ->
    snd (updateVariant self name fitType width height metaDataToSave w log)
    = (log ++ [EvHttp (variant_get self name)])%list) as Hraises.
  { intros e Hfield.
    rewrite (updateVariant_option_raises self name fitType width height
               metaDataToSave w log resp fetched details e Hreply Hjson
               Hdetails Hfield).
    reflexivity. }
  destruct (subscript details "fit") as [d_fit|e] eqn:Hfit;
    [| left; apply (Hraises e); auto].
  destruct (subscript details "metadata") as [d_metadata|e] eqn:Hmeta;
    [| left; apply (Hraises e); eauto 6].
  destruct (subscript details "width") as [d_width|e] eqn:Hwidth;
    [| left; apply (Hraises e); eauto 8].
  destruct (subscript details "height") as [d_height|e] eqn:Hheight;
    [| left; apply (Hraises e); eauto 10].
  clear Hraises.
  right. eexists. split.
  - rewrite (updateVariant_run self name fitType width height metaDataToSave
               w log resp fetched details d_fit d_metadata d_width d_height)
      by assumption.
    rewrite fetch_json_run. cbn [snd]. rewrite <- app_assoc. reflexivity.
  - rewrite !dom_insert_L, dom_empty_L. set_solver.
Qed.

(** X3: in every world and whatever the answers, [updateVariant] sends a
    GET of the variant's URL first and after it at most one request, a
    POST to the same URL whose JSON payload has exactly the four keys
    [fit], [metadata], [width] and [height], at the top level. *)
Theorem updateVariant_sends_get_then_at_most_one_post :
  forall (self : CloudFlareImages) (name fitType : string) (width height : Z)
         (metaDataToSave : string) (w : world) (log : list event),
    snd (updateVariant self name fitType width height metaDataToSave w log)
      = (log ++ [EvHttp (variant_get self name)])%list
    \/ exists payload : gmap string value,
         snd (updateVariant self name fitType width height metaDataToSave w log)
           = (log ++ [EvHttp (variant_get self name);
                      EvHttp (variant_post self name payload)])%list
         /\ dom payload = {["fit"; "metadata"; "width"; "height"]}.
Proof. exact updateVariant_log_cases. Qed.

(** ** updateVariant: what the compare-and-set amounts to *)

Lemma keep_or_set_str (d : value) (s : string) :
  (if ne_str d s then VStr s else d) = VStr s.
Proof.
  destruct d; try reflexivity. cbn [ne_str].
  destruct (String.eqb_spec s0 s) as [-> | _]; reflexivity.
Qed.

Lemma keep_or_set_int (d : value) (n : Z) :
  ne_int (if ne_int d n then VInt n else d) n = false.
Proof.
  destruct (ne_int d n) eqn:Hne; [| exact Hne].
  cbn [ne_int]. rewrite Z.eqb_refl. reflexivity.
Qed.

(** X4: the values fetched for fit, metadata and width never change what
    [updateVariant] posts for them.  Whenever the post is sent, the
    posted fit and metadata are exactly the arguments, and the posted
    width compares equal to the width argument; the posted height
    either compares equal to the height argument or is the width
    argument. *)
Theorem updateVariant_posts_the_arguments :
  forall (self : CloudFlareImages) (name fitType : string) (width height : Z)
         (metaDataToSave : string) (w : world) (log : list event)
         (resp : response)
         (fetched details d_fit d_metadata d_width d_height : value),
    http_reply w log (variant_get self name) = Some resp ->
    resp_json resp = Some fetched ->
    fetched_details fetched name = Return details ->
    subscript details "fit" = Return d_fit ->
    subscript details "metadata" = Return d_metadata ->
    subscript details "width" = Return d_width ->
    subscript details "height" = Return d_height ->
    let log' :=
      snd (updateVariant self name fitType width height metaDataToSave w log) in
    posted_field log' "fit" = Some (VStr fitType)
    /\ posted_field log' "metadata" = Some (VStr metaDataToSave)
    /\ (exists posted_width : value,
          posted_field log' "width" = Some posted_width
          /\ ne_int posted_width width = false)
    /\ (exists posted_height : value,
          posted_field log' "height" = Some posted_height
          /\ (ne_int posted_height height = false
              \/ posted_height = VInt width)).
Proof.
  intros self name fitType width height metaDataToSave w log resp fetched
    details d_fit d_metadata d_width d_height
    Hreply Hjson Hdetails Hfit Hmeta Hwidth Hheight. cbv zeta.
  rewrite (updateVariant_run self name fitType width height metaDataToSave
             w log resp fetched details d_fit d_metadata d_width d_height)
    by assumption.
  rewrite !posted_field_fetch_json. cbn [variant_post req_json mbind option_bind].
  rewrite !keep_or_set_str.
  split; [simplify_map_eq; reflexivity |].
  split; [simplify_map_eq; reflexivity |].
  split.
  - eexists. split; [simplify_map_eq; reflexivity |]. apply keep_or_set_int.
  - eexists. split; [apply lookup_insert_eq |].
    destruct (ne_int d_height height) eqn:Hne; [right; reflexivity | left; exact Hne].
Qed.

Lemma updateVariant_posts_the_arguments_witness :
  let log' :=
    snd (updateVariant client0 "thumb" "contain" 100 250 "keep" thumb_world [])
  in
  posted_field log' "fit" = Some (VStr "contain")
  /\ posted_field log' "metadata" = Some (VStr "keep")
  /\ (exists posted_width : value,
        posted_field log' "width" = Some posted_width
        /\ ne_int posted_width 100 = false)
  /\ (exists posted_height : value,
        posted_field log' "height" = Some posted_height
        /\ (ne_int posted_height 250 = false \/ posted_height = VInt 100)).
Proof.
  apply (updateVariant_posts_the_arguments client0 "thumb" "contain" 100 250
           "keep" thumb_world [] (mkResponse thumb_body (Some thumb_details))
           thumb_details (VDict thumb_options)
           (VStr "cover") (VStr "none") (VInt 100) (VInt 200));
    reflexivity.
Defined.

(** ** The one-request calls *)

(** X5: the eight calls other than [upload] and [updateVariant] hand
    exactly one request to [requests], whatever comes back, and never
    try again: when [requests] raises, the call raises
    [RequestException]; when the answer is not JSON, it raises
    [JSONDecodeError]; otherwise it returns the decoded answer. *)
Theorem one_request_calls_never_retry :
  forall (self : CloudFlareImages) (o : op),
    is_upload o = false ->
    (forall n f wd h m, o <> UpdateVariant n f wd h m) ->
    exists r : request,
      forall (w : world) (log : list event),
        snd (call self o w log) = (log ++ [EvHttp r])%list
        /\ (http_reply w log r = None ->
            fst (call self o w log) = Raise RequestException)
        /\ (forall resp : response,
              http_reply w log r = Some resp ->
              resp_json resp = None ->
              fst (call self o w log) = Raise JSONDecodeError)
        /\ (forall (resp : response) (v : value),
              http_reply w log r = Some resp ->
              resp_json resp = Some v ->
              fst (call self o w log) = Return v).
Proof.
  intros self o Hup Hupd.
  destruct (single_request_methods self o Hup Hupd) as (r & Hcall & _).
  exists r. intros w log. rewrite Hcall, fetch_json_run. cbn [fst snd].
  split; [reflexivity |].
  split; [intros ->; reflexivity |].
  split.
  - intros resp -> ->. reflexivity.
  - intros resp v -> ->. reflexivity.
Qed.

Lemma one_request_calls_never_retry_witness :
  exists r : request,
    snd (call client0 (DeleteImage "img1") dead_world []) = [EvHttp r]
    /\ fst (call client0 (DeleteImage "img1") dead_world [])
       = Raise RequestException
    /\ fst (call client0 (DeleteImage "img1") plain_world [])
       = Raise JSONDecodeError
    /\ fst (call client0 (DeleteImage "img1") refusing_world [])
       = Return failure_envelope.
Proof.
  destruct (one_request_calls_never_retry client0 (DeleteImage "img1") eq_refl)
    as (r & Hr); [discriminate |].
  exists r.
  destruct (Hr dead_world []) as (Hlog & Hdead & _).
  destruct (Hr plain_world []) as (Hlog1 & _ & Hplain & _).
  destruct (Hr refusing_world []) as (Hlog2 & _ & _ & Hjson).
  assert (r = mkRequest DELETE
                (VStr (ENDPOINT_BASE client0 +:+ "/accounts/"
                         +:+ accountId client0 +:+ "/images/v1/" +:+ "img1"))
                (requestHeaders client0) None None None) as Hreq.
  { cbn in Hlog. inversion Hlog. reflexivity. }
  split; [exact Hlog |].
  split; [apply Hdead; rewrite Hreq; reflexivity |].
  split.
  - eapply Hplain; [rewrite Hreq; reflexivity | reflexivity].
  - eapply Hjson; [rewrite Hreq; reflexivity | reflexivity].
Defined.

(** ** Where the requests go *)




(** X7: an image id is spliced into the URL as it is, so an id that
    begins with [variants] reaches the variant endpoints: for every
    name, [deleteImage] of [variants/<name>] is the very call
    [deleteVariant] of [<name>], [getImageDetails] of [variants/<name>]
    is [getVariantDetails] of [<name>], and [getImageDetails] of
    [variants] is [listVariants]. *)
Theorem image_id_reaches_variant_endpoints :
  forall (self : CloudFlareImages) (name : string),
    deleteImage self ("variants/" +:+ name) = deleteVariant self name
    /\ getImageDetails self ("variants/" +:+ name) = getVariantDetails self name
    /\ getImageDetails self "variants" = listVariants self.
Proof. intros self name. repeat split; reflexivity. Qed.

(** ** Files *)

Lemma opens_of_app (l1 l2 : list event) :
  opens_of (l1 ++ l2) = (opens_of l1 ++ opens_of l2)%list.
Proof. apply omap_app. Qed.

(** X8: no call but [upload] ever opens a file. *)
Theorem only_upload_opens_files :
  forall (self : CloudFlareImages) (o : op) (w : world) (log : list event),
    is_upload o = false ->
    opens_of (snd (call self o w log)) = opens_of log.
Proof.
  intros self o w log Hup.
  assert ((forall n f wd h m, o <> UpdateVariant n f wd h m)
          \/ exists n f wd h m, o = UpdateVariant n f wd h m) as [Hone | Hupd].
  { destruct o; try (left; discriminate). right. eauto 6. }
  - destruct (single_request_methods self o Hup Hone) as (r & Hcall & _).
    rewrite Hcall, fetch_json_run. cbn [snd].
    rewrite opens_of_app. apply app_nil_r.
  - destruct Hupd as (n & f & wd & h & m & ->). cbn [call].
    destruct (updateVariant_log_cases self n f wd h m w log)
      as [-> | (payload & -> & _)];
      rewrite opens_of_app; apply app_nil_r.
Qed.

Lemma only_upload_opens_files_witness :
  opens_of (snd (call client0 (UpdateVariant "thumb" "cover" 150 250 "keep")
                   thumb_world []))
  = [].
Proof.
  apply (only_upload_opens_files client0
           (UpdateVariant "thumb" "cover" 150 250 "keep") thumb_world []).
  reflexivity.
Defined.


(** ** Asking for a slot, then uploading *)






(** ** getCustomizedURL: case and re-normalisation *)

Lemma chr_lower_idem (c : ascii) : chr_lower (chr_lower c) = chr_lower c.
Proof. destruct c as [[] [] [] [] [] [] [] []]; reflexivity. Qed.

Lemma str_lower_idem (s : string) : str_lower (str_lower s) = str_lower s.
Proof.
  induction s as [|c s IH]; [reflexivity |].
  cbn [str_lower]. rewrite chr_lower_idem, IH. reflexivity.
Qed.

Lemma str_lower_app (s t : string) :
  str_lower (s +:+ t) = str_lower s +:+ str_lower t.
Proof.
  induction s as [|c s IH]; [reflexivity |].
  rewrite append_cons. cbn [str_lower]. rewrite append_cons, IH. reflexivity.
Qed.

Lemma str_lower_drop (k : nat) (s : string) :
  str_lower (str_drop k s) = str_drop k (str_lower s).
Proof.
  revert s. induction k as [|k IH]; intros s; [reflexivity |].
  destruct s as [|c s]; [reflexivity |]. cbn [str_drop str_lower]. apply IH.
Qed.

(** Replacing inside a lower-case string by a lower-case string leaves
    it lower-case. *)
Lemma replace_from_lower (old new : string) (skip : nat) (s : string) :
  str_lower new = new -> str_lower s = s ->
  str_lower (replace_from old new skip s) = replace_from old new skip s.
Proof.
  intros Hnew. revert skip. induction s as [|c s IH]; intros skip Hs;
    [reflexivity |].
  cbn [str_lower] in Hs. inversion Hs as [[Hc Hs']]. rewrite Hc, Hs'.
  cbn [replace_from]. destruct skip as [|k]; [| apply IH, Hs'].
  destruct (String.prefix old (String c s)).
  - rewrite str_lower_app, Hnew, (IH _ Hs'). reflexivity.
  - cbn [str_lower]. rewrite Hc, (IH _ Hs'). reflexivity.
Qed.

Lemma https_is_not_http (r : string) :
  String.prefix "http://" ("https://" +:+ r) = false.
Proof. reflexivity. Qed.

(** The domain part of the URL, as the three branches leave it. *)
Lemma getCustomizedURL_domain_part (self : CloudFlareImages) (domain : string) :
  exists n : string,
    str_startswith n "https://" = true
    /\ str_lower n = n
    /\ forall imageId variant : string,
         getCustomizedURL self domain imageId variant
         = n +:+ delivery_path self imageId variant.
Proof.
  exists (if str_startswith (str_lower domain) "http://"
          then "https://"
                 +:+ str_replace (str_drop 7 (str_lower domain))
                       "http://" "https://"
          else if str_startswith (str_lower domain) "https://"
               then str_lower domain
               else "https://" +:+ str_lower domain).
  split; [| split].
  - unfold str_startswith.
    destruct (String.prefix "http://" (str_lower domain));
      [apply prefix_append |].
    destruct (String.prefix "https://" (str_lower domain)) eqn:Hs;
      [exact Hs | apply prefix_append].
  - destruct (str_startswith (str_lower domain) "http://").
    + rewrite str_lower_app. unfold str_replace.
      rewrite replace_from_lower; [reflexivity | reflexivity |].
      rewrite str_lower_drop, str_lower_idem. reflexivity.
    + destruct (str_startswith (str_lower domain) "https://");
        [apply str_lower_idem |].
      rewrite str_lower_app, str_lower_idem. reflexivity.
  - intros imageId variant. apply getCustomizedURL_cases.
Qed.

(** X11: [getCustomizedURL] reads the domain only through its lower-cased
    form: two domains that differ only in letter case give the same URL,
    and lower-casing the domain beforehand changes nothing.  The variant
    is kept as it is: different variants give different URLs. *)
Theorem getCustomizedURL_domain_case_insensitive :
  forall (self : CloudFlareImages) (domain imageId variant : string),
    getCustomizedURL self (str_lower domain) imageId variant
      = getCustomizedURL self domain imageId variant
    /\ (forall domain' : string,
          str_lower domain' = str_lower domain ->
          getCustomizedURL self domain' imageId variant
          = getCustomizedURL self domain imageId variant)
    /\ (forall variant' : string,
          getCustomizedURL self domain imageId variant'
          = getCustomizedURL self domain imageId variant ->
          variant' = variant).
Proof.
  intros self domain imageId variant. split; [| split].
  - unfold getCustomizedURL. cbv zeta. rewrite str_lower_idem. reflexivity.
  - intros domain' Heq. unfold getCustomizedURL. cbv zeta. rewrite Heq.
    reflexivity.
  - intros variant' Heq. unfold getCustomizedURL in Heq. cbv zeta in Heq.
    repeat apply String.app_inj in Heq. exact Heq.
Qed.

Lemma getCustomizedURL_domain_case_insensitive_witness :
  getCustomizedURL client0 "IMAGES.Example.COM" "id1" "v1"
  = getCustomizedURL client0 "images.example.com" "id1" "v1"
  /\ getCustomizedURL client0 "images.example.com" "id1" "V1"
     <> getCustomizedURL client0 "images.example.com" "id1" "v1".
Proof.
  destruct (getCustomizedURL_domain_case_insensitive client0
              "images.example.com" "id1" "v1") as (_ & Hcase & Hvariant).
  split; [apply Hcase; reflexivity |].
  intros Heq. apply Hvariant in Heq. discriminate Heq.
Defined.

(** X12: the normalisation is idempotent.  The domain part of every URL
    that [getCustomizedURL] builds starts with [https://] and is in
    lower case, and passing it back as the domain gives the same URL
    for every image id and variant. *)
Theorem getCustomizedURL_renormalisation_idempotent :
  forall (self : CloudFlareImages) (domain : string),
  exists n : string,
    str_startswith n "https://" = true
    /\ str_lower n = n
    /\ forall imageId variant : string,
         getCustomizedURL self domain imageId variant
           = n +:+ delivery_path self imageId variant
         /\ getCustomizedURL self n imageId variant
           = getCustomizedURL self domain imageId variant.
Proof.
  intros self domain.
  destruct (getCustomizedURL_domain_part self domain) as (n & Hhttps & Hlower & Hurl).
  exists n. split; [exact Hhttps |]. split; [exact Hlower |].
  intros imageId variant. split; [apply Hurl |].
  rewrite Hurl. unfold getCustomizedURL. cbv zeta. rewrite Hlower.
  unfold str_startswith in *.
  assert (String.prefix "http://" n = false) as ->
    by (rewrite (prefix_split _ _ Hhttps); apply https_is_not_http).
  rewrite Hhttps. reflexivity.
Qed.

(** ** The format check: names with and without an extension *)

Lemma rfind_from_app (c : ascii) (s1 s2 : string) (i acc : Z) :
  rfind_from c (s1 +:+ s2) i acc
  = rfind_from c s2 (i + Z.of_nat (String.length s1)) (rfind_from c s1 i acc).
Proof.
  revert i acc. induction s1 as [|a s1 IH]; intros i acc.
  - cbn [String.length rfind_from]. rewrite Z.add_0_r. reflexivity.
  - rewrite append_cons. cbn [rfind_from String.length]. rewrite IH.
    f_equal. lia.
Qed.

Lemma rfind_from_absent (c : ascii) (s : string) (i acc : Z) :
  has_char c s = false -> rfind_from c s i acc = acc.
Proof.
  revert i acc. induction s as [|a s IH]; intros i acc H; [reflexivity |].
  cbn [has_char] in H. apply orb_false_elim in H as [Ha Hs].
  cbn [rfind_from]. rewrite Ha. apply IH, Hs.
Qed.

Lemma rfind_from_bound (c : ascii) (s : string) (i acc : Z) :
  acc < i -> rfind_from c s i acc < i + Z.of_nat (String.length s).
Proof.
  revert i acc. induction s as [|a s IH]; intros i acc H.
  - cbn. lia.
  - cbn [rfind_from String.length].
    assert (rfind_from c s (i + 1) (if Ascii.eqb a c then i else acc)
            < i + 1 + Z.of_nat (String.length s)) as Hlt
      by (apply IH; destruct (Ascii.eqb a c); lia).
    lia.
Qed.

Lemma str_drop_app (s t : string) : str_drop (String.length s) (s +:+ t) = t.
Proof. induction s as [|c s IH]; [reflexivity | exact IH]. Qed.

Lemma str_take_app (s t : string) : str_take (String.length s) (s +:+ t) = s.
Proof.
  induction s as [|c s IH]; [reflexivity |].
  rewrite append_cons. cbn [String.length str_take]. rewrite IH. reflexivity.
Qed.

Lemma substring_at_end (s : string) (c : ascii) (t : string) :
  String.substring (String.length s) 1 (s +:+ String c t) = String c EmptyString.
Proof.
  induction s as [|a s IH]; [| exact IH].
  cbn. destruct t; reflexivity.
Qed.

(** The loop of [_splitext] splits as soon as some character between the
    separator and the dot is not a dot. *)
Lemma splitext_loop_found (p : string) (extsep : ascii) (dotIndex : Z)
    (n : nat) (filenameIndex j : Z) :
  filenameIndex <= j < filenameIndex + Z.of_nat n ->
  String.eqb (String.substring (Z.to_nat j) 1 p) (String extsep EmptyString)
    = false ->
  splitext_loop p extsep dotIndex n filenameIndex
  = (str_take (Z.to_nat dotIndex) p, str_drop (Z.to_nat dotIndex) p).
Proof.
  revert filenameIndex. induction n as [|n IH]; intros fi Hj Hne; [lia |].
  cbn [splitext_loop].
  destruct (String.eqb (String.substring (Z.to_nat fi) 1 p)
              (String extsep EmptyString)) eqn:Hfi; [| reflexivity].
  cbn [negb]. apply IH; [| exact Hne].
  assert (j <> fi) by (intros ->; congruence). lia.
Qed.

(** [splitext] undoes the joining of a stem that ends in an ordinary
    character with an extension that holds no other dot and no slash. *)
Lemma splitext_join (stem : string) (c : ascii) (rest : string) :
  c <> "."%char -> c <> "/"%char ->
  has_char "." rest = false -> has_char "/" rest = false ->
  os_path_splitext (stem +:+ String c (String "." rest))
  = (stem +:+ String c EmptyString, String "." rest).
Proof.
  intros Hdot Hsep Hrest_dot Hrest_sep.
  apply Ascii.eqb_neq in Hdot. apply Ascii.eqb_neq in Hsep.
  unfold os_path_splitext, _splitext, str_rfind. cbv zeta.
  rewrite !rfind_from_app. cbn [rfind_from]. rewrite Hdot, Hsep.
  cbn [Ascii.eqb Bool.eqb]. rewrite !rfind_from_absent by assumption.
  rewrite Z.add_0_l.
  pose proof (rfind_from_bound "/" stem 0 (-1) ltac:(lia)) as Hbound.
  set (sepIndex := rfind_from "/" stem 0 (-1)) in *.
  set (len := String.length stem) in *.
  destruct (Z.gtb_spec (Z.of_nat len + 1) sepIndex) as [_ | Hle]; [| lia].
  rewrite (splitext_loop_found _ _ _ _ _ (Z.of_nat len)).
  - replace (Z.to_nat (Z.of_nat len + 1)) with (String.length (stem +:+ String c EmptyString))
      by (rewrite length_app; cbn [String.length]; lia).
    replace (stem +:+ String c (String "." rest))
      with ((stem +:+ String c EmptyString) +:+ String "." rest)
      by (rewrite append_assoc; reflexivity).
    rewrite str_take_app, str_drop_app. reflexivity.
  - lia.
  - rewrite Nat2Z.id. unfold len. rewrite substring_at_end.
    cbn [String.eqb]. rewrite Hdot. reflexivity.
Qed.

Lemma chr_lower_is_dot (c : ascii) : chr_lower c = "."%char -> c = "."%char.
Proof.
  destruct c as [[] [] [] [] [] [] [] []]; intros H;
    first [reflexivity | discriminate H].
Qed.

Lemma has_char_lower (x : ascii) (s : string) :
  chr_lower x = x ->
  has_char x (str_lower s) = false -> has_char x s = false.
Proof.
  intros Hx. induction s as [|a s IH]; intros H; [reflexivity |].
  cbn [str_lower has_char] in H |- *.
  apply orb_false_elim in H as [Ha Hs]. rewrite (IH Hs), orb_false_r.
  apply Ascii.eqb_neq. intros ->. rewrite Hx, Ascii.eqb_refl in Ha.
  discriminate Ha.
Qed.

(** An extension that lower-cases to a supported format is a dot followed
    by characters among which there is no dot and no slash. *)
Lemma supported_extension_shape (ext : string) :
  str_lower ext ∈ [".png"; ".gif"; ".jpeg"; ".jpg"; ".webp"; ".svg"] ->
  exists rest : string,
    ext = String "." rest
    /\ has_char "." rest = false /\ has_char "/" rest = false.
Proof.
  intros Hin.
  assert (exists e rest0, str_lower ext = String "." e
                          /\ ext = String "." rest0
                          /\ str_lower rest0 = e
                          /\ has_char "." e = false
                          /\ has_char "/" e = false)
    as (e & rest0 & _ & -> & He & Hdot & Hsep).
  { destruct ext as [|c0 rest0].
    - exfalso. cbn [str_lower] in Hin.
      repeat (apply elem_of_cons in Hin as [Hin | Hin]; [discriminate Hin |]).
      apply elem_of_nil in Hin. exact Hin.
    - cbn [str_lower] in Hin |- *.
      assert (chr_lower c0 = "."%char) as Hc0.
      { repeat (apply elem_of_cons in Hin as [Hin | Hin];
                [inversion Hin; reflexivity |]).
        apply elem_of_nil in Hin. contradiction. }
      apply chr_lower_is_dot in Hc0 as ->.
      exists (str_lower rest0), rest0.
      split; [reflexivity |]. split; [reflexivity |]. split; [reflexivity |].
      repeat (apply elem_of_cons in Hin as [Hin | Hin];
              [apply (f_equal (str_drop 1)) in Hin; cbn [str_drop] in Hin;
               rewrite Hin; split; reflexivity |]).
      apply elem_of_nil in Hin. contradiction. }
  exists rest0. split; [reflexivity |]. subst e.
  split; apply has_char_lower; (reflexivity || assumption).
Qed.

(** X13: a name made of a stem that ends in a character other than a dot
    or a slash, followed by an extension that is, in any letter case,
    one of the supported formats, passes the format check; directories
    and dots earlier in the stem do not matter. *)
Theorem checkIfImageSupported_accepts_supported_extension :
  forall (apiKey accountId email accountHash : string)
         (stem : string) (c : ascii) (ext : string),
    c <> "."%char -> c <> "/"%char ->
    str_lower ext ∈ [".png"; ".gif"; ".jpeg"; ".jpg"; ".webp"; ".svg"] ->
    _checkIfImageSupported (__init__ apiKey accountId email accountHash)
      (stem +:+ String c ext) = true.
Proof.
  intros apiKey accountId email accountHash stem c ext Hdot Hsep Hin.
  destruct (supported_extension_shape ext Hin) as (rest & -> & Hrd & Hrs).
  unfold _checkIfImageSupported. cbv zeta.
  rewrite (splitext_join stem c rest Hdot Hsep Hrd Hrs). cbn [snd].
  apply bool_decide_eq_true. exact Hin.
Qed.

Lemma checkIfImageSupported_accepts_supported_extension_witness :
  _checkIfImageSupported (__init__ "k" "a" "e" "h")
    ("/srv/my.photos/cat" +:+ String "1" ".JpEg") = true.
Proof.
  apply (checkIfImageSupported_accepts_supported_extension "k" "a" "e" "h"
           "/srv/my.photos/cat" "1" ".JpEg").
  - discriminate.
  - discriminate.
  - cbn. set_solver.
Defined.

Lemma splitext_no_dot (p : string) :
  has_char "." p = false -> os_path_splitext p = (p, EmptyString).
Proof.
  intros Hp. unfold os_path_splitext, _splitext, str_rfind. cbv zeta.
  rewrite (rfind_from_absent "." p 0 (-1) Hp).
  pose proof (rfind_from_spec "/" p 0 (-1)) as [[-> _] | (Hrange & _)];
    [reflexivity |].
  destruct (Z.gtb_spec (-1) (rfind_from "/" p 0 (-1))); [lia | reflexivity].
Qed.

Lemma splitext_dot_file (dir rest : string) :
  has_char "." rest = false -> has_char "/" rest = false ->
  os_path_splitext (dir +:+ String "/" (String "." rest))
  = (dir +:+ String "/" (String "." rest), EmptyString)
  /\ os_path_splitext (String "." rest) = (String "." rest, EmptyString).
Proof.
  intros Hdot Hsep. unfold os_path_splitext, _splitext, str_rfind. cbv zeta.
  split.
  - rewrite !rfind_from_app. cbn [rfind_from Ascii.eqb Bool.eqb].
    rewrite !rfind_from_absent by assumption. rewrite Z.add_0_l.
    destruct (Z.gtb_spec (Z.of_nat (String.length dir) + 1)
                (Z.of_nat (String.length dir))); [| lia].
    rewrite Z.sub_diag. reflexivity.
  - cbn [rfind_from Ascii.eqb Bool.eqb].
    rewrite !rfind_from_absent by assumption. reflexivity.
Qed.

(** X14: a name without an extension never passes the format check:
    neither a path that holds no dot at all, nor a dot-file, whose only
    dot is the first character of its last component, so that even a
    file called [.png] is rejected. *)
Theorem checkIfImageSupported_rejects_missing_extension :
  forall (apiKey accountId email accountHash : string),
    (forall path : string,
       has_char "." path = false ->
       _checkIfImageSupported (__init__ apiKey accountId email accountHash) path
       = false)
    /\ (forall dir rest : string,
          has_char "." rest = false -> has_char "/" rest = false ->
          _checkIfImageSupported (__init__ apiKey accountId email accountHash)
            (dir +:+ String "/" (String "." rest)) = false
          /\ _checkIfImageSupported (__init__ apiKey accountId email accountHash)
               (String "." rest) = false).
Proof.
  intros apiKey accountId email accountHash. split.
  - intros path Hp. unfold _checkIfImageSupported. cbv zeta.
    rewrite (splitext_no_dot path Hp). reflexivity.
  - intros dir rest Hdot Hsep.
    destruct (splitext_dot_file dir rest Hdot Hsep) as (Hdir & Hbare).
    unfold _checkIfImageSupported. cbv zeta. rewrite Hdir, Hbare.
    split; reflexivity.
Qed.

Lemma checkIfImageSupported_rejects_missing_extension_witness :
  _checkIfImageSupported (__init__ "k" "a" "e" "h") "/srv/photos/README" = false
  /\ _checkIfImageSupported (__init__ "k" "a" "e" "h")
       ("/srv/photos" +:+ String "/" (String "." "png")) = false
  /\ _checkIfImageSupported (__init__ "k" "a" "e" "h") (String "." "png") = false.
Proof.
  destruct (checkIfImageSupported_rejects_missing_extension "k" "a" "e" "h")
    as (Hnodot & Hdotfile).
  split; [apply Hnodot; reflexivity |].
  apply (Hdotfile "/srv/photos" "png"); reflexivity.
Defined.

(** X15: only the last extension counts.  For a name made of any stem
    that ends in a character other than a dot or a slash, followed by a
    dot and a suffix that holds no dot and no slash, the format check
    answers [true] exactly when that last suffix is, up to letter case,
    a supported format: an earlier [.png] in the stem does not help and
    an earlier [.exe] does not hurt. *)
Theorem checkIfImageSupported_reads_last_extension :
  forall (apiKey accountId email accountHash : string)
         (stem : string) (c : ascii) (rest : string),
    c <> "."%char -> c <> "/"%char ->
    has_char "." rest = false -> has_char "/" rest = false ->
    (_checkIfImageSupported (__init__ apiKey accountId email accountHash)
       (stem +:+ String c (String "." rest)) = true
     <-> str_lower (String "." rest)
           ∈ [".png"; ".gif"; ".jpeg"; ".jpg"; ".webp"; ".svg"]).
Proof.
  intros apiKey accountId email accountHash stem c rest Hdot Hsep Hrd Hrs.
  unfold _checkIfImageSupported. cbv zeta.
  rewrite (splitext_join stem c rest Hdot Hsep Hrd Hrs). cbn [snd].
  apply bool_decide_eq_true.
Qed.

Lemma checkIfImageSupported_reads_last_extension_witness :
  _checkIfImageSupported (__init__ "k" "a" "e" "h")
    ("cat.ex" +:+ String "e" (String "." "PNG")) = true
  /\ _checkIfImageSupported (__init__ "k" "a" "e" "h")
       ("cat.pn" +:+ String "g" (String "." "exe")) <> true.
Proof.
  split.
  - apply (checkIfImageSupported_reads_last_extension "k" "a" "e" "h"
             "cat.ex" "e" "PNG"); try discriminate; try reflexivity.
    cbn. set_solver.
  - intros H.
    apply (checkIfImageSupported_reads_last_extension "k" "a" "e" "h"
             "cat.pn" "g" "exe") in H; try discriminate; try reflexivity.
    cbn in H.
    repeat (apply elem_of_cons in H as [H | H]; [discriminate H |]).
    apply elem_of_nil in H. exact H.
Defined.

(** ** What each part of the instance is used for *)

(** X16: the account hash and the API credentials are kept apart.  No
    call to the API depends on the account hash, and the delivery URL
    that [getCustomizedURL] builds depends on the instance through the
    account hash alone: neither the API key, nor the account id, nor the
    e-mail address can appear in it. *)
Theorem credentials_and_account_hash_are_kept_apart :
  forall (apiKey accountId email accountHash : string),
    (forall (accountHash' : string) (o : op),
       call (__init__ apiKey accountId email accountHash') o
       = call (__init__ apiKey accountId email accountHash) o)
    /\ (forall (apiKey' accountId' email' : string)
               (domain imageId variant : string),
          getCustomizedURL (__init__ apiKey' accountId' email' accountHash)
            domain imageId variant
          = getCustomizedURL (__init__ apiKey accountId email accountHash)
              domain imageId variant).
Proof.
  intros apiKey accountId email accountHash. split.
  - intros accountHash' o. destruct o; reflexivity.
  - reflexivity.
Qed.

(** ** getCustomizedURL: nothing of [http://] is left *)

(** X17: for a domain that starts with [http://] in any letter case, the
    domain part of the URL holds no [http://] any more, at its start or
    later: every occurrence has become [https://]. *)
Theorem getCustomizedURL_leaves_no_http :
  forall (self : CloudFlareImages) (domain : string),
    str_startswith (str_lower domain) "http://" = true ->
    exists n : string,
      str_contains n "http://" = false
      /\ forall imageId variant : string,
           getCustomizedURL self domain imageId variant
           = n +:+ delivery_path self imageId variant.
Proof.
  intros self domain Hhttp.
  exists ("https://"
            +:+ str_replace (str_drop 7 (str_lower domain)) "http://" "https://").
  split.
  - rewrite contains_after_https. apply replace_leaves_no_http.
  - intros imageId variant. rewrite getCustomizedURL_cases, Hhttp. reflexivity.
Qed.

Lemma getCustomizedURL_leaves_no_http_witness :
  exists n : string,
    str_contains n "http://" = false
    /\ forall imageId variant : string,
         getCustomizedURL client0 "HTTP://a.example/http://b" imageId variant
         = n +:+ delivery_path client0 imageId variant.
Proof.
  apply (getCustomizedURL_leaves_no_http client0 "HTTP://a.example/http://b").
  reflexivity.
Defined.

(** ** createVariant *)

(** X18: [createVariant] hands one POST to the variants collection of the
    account, whatever comes back.  Its JSON payload has exactly the keys
    [id], [options] and [neverRequireSignedURLs]; the name travels as
    [id], and fit, metadata, width and height are read back unchanged
    from the dict under [options], which has exactly these four keys:
    the fields are nested, not at the top level where [updateVariant]
    puts them. *)
Theorem createVariant_payload_round_trip :
  forall (self : CloudFlareImages) (name fitType : string) (width height : Z)
         (metaDataToSave : string) (neverRequireSignedURLs : bool)
         (w : world) (log : list event),
  exists (payload options : gmap string value),
    snd (createVariant self name fitType width height metaDataToSave
           neverRequireSignedURLs w log)
    = (log ++ [EvHttp
         {| req_method := POST;
            req_url := VStr (ENDPOINT_BASE self +:+ "/accounts/"
                              +:+ accountId self +:+ "/images/v1/variants");
            req_headers := requestHeaders self;
            req_params := None; req_json := Some payload;
            req_files := None |}])%list
    /\ dom payload = {["id"; "options"; "neverRequireSignedURLs"]}
    /\ payload !! "id" = Some (VStr name)
    /\ payload !! "neverRequireSignedURLs" = Some (VBool neverRequireSignedURLs)
    /\ payload !! "options" = Some (VDict options)
    /\ dom options = {["fit"; "metadata"; "width"; "height"]}
    /\ options !! "fit" = Some (VStr fitType)
    /\ options !! "metadata" = Some (VStr metaDataToSave)
    /\ options !! "width" = Some (VInt width)
    /\ options !! "height" = Some (VInt height).
Proof.
  intros self name fitType width height metaDataToSave nrs w log.
  eexists; eexists. split.
  { unfold createVariant, requests_post. cbv zeta.
    rewrite bind_run. unfold send.
    destruct (http_reply w log _); reflexivity. }
  split; [rewrite !dom_insert_L, dom_empty_L; set_solver |].
  split; [simplify_map_eq; reflexivity |].
  split; [simplify_map_eq; reflexivity |].
  split; [simplify_map_eq; reflexivity |].
  split; [rewrite !dom_insert_L, dom_empty_L; set_solver |].
  repeat split; simplify_map_eq; reflexivity.
Qed.
